(** * Blog CMS (app.js): slug assignment and request handlers

    A shallow embedding of the Express application of [app.js] (the
    slug-addressed revision: routes [/blog/:slug], [/admin/edit/:slug],
    [/admin/delete/:slug], [/admin/blog]).

    Strings are [string] values whose characters are read as code units in
    the range 0..255 (ASCII plus Latin-1).  The hosted backend is an in-memory
    table of rows and a bucket of named objects that execute every call as it
    is issued; the outcome of the four calls whose error the handlers test
    ([uploadError], [insertError], [updateError], [deleteError]) and the
    values of [Date.now()] are supplied by the environment of a request. *)

From Stdlib Require Import Bool List Arith NArith Lia Ascii String FinFun.
From Stdlib Require Import Sorted Permutation.
From Stdlib Require Import DecimalString DecimalN.
Import ListNotations.

Set Implicit Arguments.
Local Open Scope string_scope.
Local Open Scope N_scope.

(** ** Characters and the string methods used by [generateSlug] *)

Module Chars.

Definition code (c : ascii) : N := N_of_ascii c.

Definition between (lo hi : N) (c : ascii) : bool :=
  (lo <=? code c) && (code c <=? hi).

Definition is_upper (c : ascii) : bool := between 65 90 c.
Definition is_lower (c : ascii) : bool := between 97 122 c.
Definition is_digit (c : ascii) : bool := between 48 57 c.
Definition is_letter (c : ascii) : bool := is_upper c || is_lower c.

(** The regular-expression class [\w]: [A-Za-z0-9_]. *)
Definition is_word (c : ascii) : bool :=
  is_letter c || is_digit c || (code c =? 95).

(** The class [\s] below U+0100: TAB, LF, VT, FF, CR, SPACE and NBSP.
    [String.prototype.trim] strips exactly the same characters. *)
Definition is_space (c : ascii) : bool :=
  between 9 13 c || (code c =? 32) || (code c =? 160).

Definition is_hyphen (c : ascii) : bool := code c =? 45.

(** [toLowerCase] on one code unit below U+0100: [A-Z] and the Latin-1
    capitals U+00C0..U+00DE (the multiplication sign U+00D7 apart) move up
    by 32; every other character is its own lower case. *)
Definition lower_char (c : ascii) : ascii :=
  if is_upper c || (between 192 222 c && negb (code c =? 215))
  then ascii_of_N (code c + 32)
  else c.

End Chars.

Module Str.
Import Chars.

Fixpoint map (f : ascii -> ascii) (s : string) : string :=
  match s with
  | EmptyString => EmptyString
  | String c r => String (f c) (map f r)
  end.

Definition toLowerCase (s : string) : string := map lower_char s.

(** [s.replace(/[^K]/g, '')] for a character class [K]: the characters
    outside the class are deleted. *)
Fixpoint remove_unless (keep : ascii -> bool) (s : string) : string :=
  match s with
  | EmptyString => EmptyString
  | String c r =>
      if keep c then String c (remove_unless keep r)
      else remove_unless keep r
  end.

(** [s.replace(/P+/g, '-')] for a character class [P]: every maximal run of
    characters of the class becomes one hyphen.  [in_run] tells that the
    previous character already belonged to the run being replaced. *)
Fixpoint replace_runs (p : ascii -> bool) (in_run : bool) (s : string)
  : string :=
  match s with
  | EmptyString => EmptyString
  | String c r =>
      if p c then
        (if in_run then replace_runs p true r
         else String "-" (replace_runs p true r))
      else String c (replace_runs p false r)
  end.

Fixpoint strip_start (p : ascii -> bool) (s : string) : string :=
  match s with
  | EmptyString => EmptyString
  | String c r => if p c then strip_start p r else s
  end.

Fixpoint strip_end (p : ascii -> bool) (s : string) : string :=
  match s with
  | EmptyString => EmptyString
  | String c r =>
      match strip_end p r with
      | EmptyString => if p c then EmptyString else String c EmptyString
      | r' => String c r'
      end
  end.

Definition strip (p : ascii -> bool) (s : string) : string :=
  strip_end p (strip_start p s).

(** [String.prototype.trim]. *)
Definition trim (s : string) : string := strip is_space s.

Fixpoint forallb (p : ascii -> bool) (s : string) : bool :=
  match s with
  | EmptyString => true
  | String c r => p c && forallb p r
  end.

Definition starts_with (p : ascii -> bool) (s : string) : bool :=
  match s with
  | EmptyString => false
  | String c _ => p c
  end.

Fixpoint ends_with (p : ascii -> bool) (s : string) : bool :=
  match s with
  | EmptyString => false
  | String c EmptyString => p c
  | String _ r => ends_with p r
  end.

(** [s.split('/').pop()]: the part of [s] after its last slash, the whole
    of [s] when it has none. *)
Fixpoint last_segment (s : string) : string :=
  match s with
  | EmptyString => EmptyString
  | String c r =>
      if (code c =? 47) then last_segment r
      else if forallb (fun d => negb (code d =? 47)) r then s
      else last_segment r
  end.

(** A template literal's rendering of a non-negative integer Number. *)
Definition of_N (n : N) : string := NilEmpty.string_of_uint (N.to_uint n).

End Str.

(** ** The slug generator *)

(** The characters that [/[^\w\s-]/g] leaves in place. *)
Definition word_keep (c : ascii) : bool :=
  Chars.is_word c || Chars.is_space c || Chars.is_hyphen c.

(** [generateSlug], app.js:305-312. *)
Definition generateSlug (title : string) : string :=
  Str.trim
    (Str.replace_runs Chars.is_hyphen false
       (Str.replace_runs Chars.is_space false
          (Str.remove_unless word_keep (Str.toLowerCase title)))).

(** The value [generateSlug] has before its closing [.trim()]. *)
Definition slug_core (title : string) : string :=
  Str.replace_runs Chars.is_hyphen false
    (Str.replace_runs Chars.is_space false
       (Str.remove_unless word_keep (Str.toLowerCase title))).

(** The derivation as the specification words it, over a class of characters
    that step 2 keeps: lower-case, delete what is outside the class, turn
    each whitespace run into a hyphen, merge each hyphen run, and trim the
    hyphens at both ends. *)
Definition derive_with (keep : ascii -> bool) (title : string) : string :=
  Str.strip Chars.is_hyphen
    (Str.replace_runs Chars.is_hyphen false
       (Str.replace_runs Chars.is_space false
          (Str.remove_unless keep (Str.toLowerCase title)))).

(** Step 2 in the specification's words: letters, digits, whitespace and
    hyphens are kept. *)
Definition spec_keep (c : ascii) : bool :=
  Chars.is_letter c || Chars.is_digit c || Chars.is_space c
  || Chars.is_hyphen c.

Definition spec_slug (title : string) : string := derive_with spec_keep title.

Definition edge_hyphen_free (s : string) : bool :=
  negb (Str.starts_with Chars.is_hyphen s)
  && negb (Str.ends_with Chars.is_hyphen s).

(** ** Data model *)

Module Blog.
(** A row of the [blogs] table. *)
Record t : Type := make {
  id : N;
  title : string;
  description : option string;
  file_url : option string;
  slug : string;
  created_at : N
}.
End Blog.

(** An object of the [blog-files] bucket. *)
Record Object : Type := {
  name : string;
  body : string;
  contentType : string;
  cacheControl : string
}.

(** The file multer's [upload.single('file')] leaves in [req.file]. *)
Record File : Type := {
  originalname : string;
  buffer : string;
  mimetype : string
}.

(** The mutating calls issued to the bucket, in the order they are made. *)
Inductive StorageCall : Type :=
| CallUpload (filename : string)
| CallRemove (names : list string).

Record World : Type := {
  isAuthenticated : bool;          (* req.session.isAuthenticated *)
  blogs : list Blog.t;             (* the record store *)
  objects : list Object;           (* the object store *)
  storage_log : list StorageCall
}.

(** [process.env] and the two library functions whose results the handlers
    only pass along. *)
Record Config : Type := {
  ADMIN_USERNAME : option string;
  ADMIN_PASSWORD : option string;
  extname : string -> string;        (* path.extname *)
  getPublicUrl : string -> string    (* storage.from(..).getPublicUrl *)
}.

(** What the outside supplies during one request: the clock readings and the
    error result of each checked backend call. *)
Record Env : Type := {
  now_slug : N;        (* Date.now() at app.js:444 *)
  now_file : N;        (* Date.now() at app.js:476 and app.js:573 *)
  uploadError : bool;
  insertError : bool;
  updateError : bool;
  deleteError : bool;
  insert_id : N;           (* id the store gives an inserted row *)
  insert_created_at : N    (* created_at the store gives an inserted row *)
}.

Inductive Response : Type :=
| Redirect (path : string)
| Render (view : string) (rows : list Blog.t)
| Send (status : N) (text : string).

Inductive Request : Type :=
| GetHome
| GetBlog (slug : string)
| GetLogin
| PostLogin (username password : option string)
| GetAdmin
| GetAdminEdit (slug : string)
| PostAdminEdit (slug : string) (title description remove_file : option string)
    (file : option File)
| PostAdminDelete (slug : string)
| PostAdminBlog (title description : option string) (file : option File)
| GetLogout.

(** The routes registered with [requireAuth]. *)
Definition admin_scoped (r : Request) : bool :=
  match r with
  | GetAdmin | GetAdminEdit _ | PostAdminEdit _ _ _ _ _
  | PostAdminDelete _ | PostAdminBlog _ _ _ => true
  | _ => false
  end.

(** ** The backend *)

Module Backend.

(** [.single()]: the row when the query has exactly one, otherwise no data. *)
Definition single (A : Type) (l : list A) : option A :=
  match l with
  | [x] => Some x
  | _ => None
  end.

Definition slug_is (s : string) (r : Blog.t) : bool :=
  (Blog.slug r =? s)%string.

(** [.select().eq('slug', s).single()] *)
Definition select_by_slug (rows : list Blog.t) (s : string) : option Blog.t :=
  single (filter (slug_is s) rows).

(** [.select('id').eq('slug', s).neq('slug', old).single()] *)
Definition select_conflict (rows : list Blog.t) (s old : string)
  : option Blog.t :=
  single (filter (fun r => slug_is s r && negb (slug_is old r)) rows).

Fixpoint insert_desc (r : Blog.t) (l : list Blog.t) : list Blog.t :=
  match l with
  | [] => [r]
  | x :: xs =>
      if Blog.created_at x <? Blog.created_at r then r :: l
      else x :: insert_desc r xs
  end.

(** [.select('*').order('created_at', { ascending: false })] *)
Definition select_ordered (rows : list Blog.t) : list Blog.t :=
  fold_right insert_desc [] rows.

(** The body of an update is sent as JSON: a field that is [undefined] is
    left out and the column keeps its value; [null] is sent. *)
Definition patch (title : string) (description file_url : option string)
    (slug : string) (r : Blog.t) : Blog.t :=
  Blog.make (Blog.id r) title
    (match description with Some d => Some d | None => Blog.description r end)
    file_url slug (Blog.created_at r).

(** [.update(fields).eq('slug', old)] *)
Definition update_rows (old : string) (f : Blog.t -> Blog.t)
    (rows : list Blog.t) : list Blog.t :=
  map (fun r => if slug_is old r then f r else r) rows.

(** [.delete().eq('slug', s)] *)
Definition delete_rows (s : string) (rows : list Blog.t) : list Blog.t :=
  filter (fun r => negb (slug_is s r)) rows.

Definition named_in (names : list string) (o : Object) : bool :=
  existsb (fun n => (name o =? n)%string) names.

(** [storage.from('blog-files').remove(names)] *)
Definition remove_objects (names : list string) (os : list Object)
  : list Object :=
  filter (fun o => negb (named_in names o)) os.

End Backend.

(** A value is truthy unless it is [null], [undefined] or the empty string. *)
Definition truthy (v : option string) : bool :=
  match v with
  | Some EmptyString | None => false
  | Some _ => true
  end.

(** [a === b] on values that are strings or [undefined]. *)
Definition strict_eq (a b : option string) : bool :=
  match a, b with
  | Some x, Some y => (x =? y)%string
  | None, None => true
  | _, _ => false
  end.

(** The [k]-th slug the creation loop tries: the base slug, then the base
    slug with [-1], [-2], ... appended. *)
Definition candidate (slug : string) (k : N) : string :=
  if k =? 0 then slug else slug ++ "-" ++ Str.of_N k.

Definition slugs (rows : list Blog.t) : list string := map Blog.slug rows.

(** Whether the lookup made by the [j]-th probe of the creation loop finds no
    data. *)
Definition candidate_free (rows : list Blog.t) (slug : string) (j : nat)
  : bool :=
  match Backend.select_by_slug rows (candidate slug (N.of_nat j)) with
  | None => true
  | Some _ => false
  end.

(** The object a stored [file_url] points at. *)
Definition references (obj : string) (r : Blog.t) : bool :=
  match Blog.file_url r with
  | Some u => (Str.last_segment u =? obj)%string
  | None => false
  end.

(** ** Handlers *)

(** A handler body runs over the world and either returns or throws; the
    [try]/[catch] of each route turns a throw into its error response. *)
Inductive Outcome (A : Type) : Type :=
| Return (a : A)
| Throw.
Arguments Throw {A}.

Definition M (A : Type) : Type := World -> Outcome A * World.

Definition ret (A : Type) (a : A) : M A := fun w => (Return a, w).

Definition throw {A : Type} : M A := fun w => (Throw, w).

Definition bind (A B : Type) (m : M A) (k : A -> M B) : M B :=
  fun w =>
    match m w with
    | (Return a, w') => k a w'
    | (Throw, w') => (Throw, w')
    end.

Notation "x <- m ;; k" := (bind m (fun x => k))
  (at level 61, m at next level, right associativity).
Notation "m ;;; k" := (bind m (fun _ => k))
  (at level 61, right associativity).

Definition try_catch (body : M Response) (on_error : Response)
  : World -> Response * World :=
  fun w =>
    match body w with
    | (Return r, w') => (r, w')
    | (Throw, w') => (on_error, w')
    end.

Definition read_blogs : M (list Blog.t) := fun w => (Return (blogs w), w).

Definition write_blogs (rows : list Blog.t) : M unit :=
  fun w => (Return tt,
            {| isAuthenticated := isAuthenticated w; blogs := rows;
               objects := objects w; storage_log := storage_log w |}).

Definition set_authenticated (b : bool) : World -> World :=
  fun w => {| isAuthenticated := b; blogs := blogs w;
              objects := objects w; storage_log := storage_log w |}.

(** [await supabase.storage.from('blog-files').remove(names)] *)
Definition storage_remove (names : list string) : M unit :=
  fun w => (Return tt,
            {| isAuthenticated := isAuthenticated w; blogs := blogs w;
               objects := Backend.remove_objects names (objects w);
               storage_log := storage_log w ++ [CallRemove names] |}).

(** [await supabase.storage.from('blog-files').upload(filename, buffer,
    { contentType, cacheControl: '3600' })]; the result is [uploadError]. *)
Definition storage_upload (failed : bool) (filename : string) (f : File)
  : M bool :=
  fun w => (Return failed,
            {| isAuthenticated := isAuthenticated w; blogs := blogs w;
               objects :=
                 if failed then objects w
                 else objects w ++
                      [{| name := filename; body := buffer f;
                          contentType := mimetype f; cacheControl := "3600" |}];
               storage_log := storage_log w ++ [CallUpload filename] |}).

(** A write to the table that reports [failed] and, when it does, leaves the
    rows as they were. *)
Definition db_write (failed : bool) (f : list Blog.t -> list Blog.t) : M bool :=
  rows <- read_blogs ;;
  (if failed then ret tt else write_blogs (f rows)) ;;;
  ret failed.

(** [if (e) throw e] *)
Definition throw_if (e : bool) : M unit := if e then throw else ret tt.

(** Reading a property of [v] throws when [v] is [null] or [undefined]. *)
Definition deref (A : Type) (v : option A) : M A :=
  match v with
  | Some a => ret a
  | None => throw
  end.

Section Routes.

Variable cfg : Config.
Variable env : Env.

(** [requireAuth], app.js:325-331. *)
Definition requireAuth (next : World -> option (Response * World))
  : World -> option (Response * World) :=
  fun w => if isAuthenticated w then next w else Some (Redirect "/login", w).

(** [GET /], app.js:334-351. *)
Definition getHome : World -> Response * World :=
  fun w => (Render "home" (Backend.select_ordered (blogs w)), w).

(** [GET /blog/:slug], app.js:353-371. *)
Definition getBlog (slug : string) : World -> Response * World :=
  fun w =>
    match Backend.select_by_slug (blogs w) slug with
    | Some blog => (Render "blog" [blog], w)
    | None => (Redirect "/", w)
    end.

(** [GET /login], app.js:373-375. *)
Definition getLogin : World -> Response * World :=
  fun w => (Render "login" [], w).

(** [POST /login], app.js:377-385. *)
Definition postLogin (username password : option string)
  : World -> Response * World :=
  fun w =>
    if strict_eq username (ADMIN_USERNAME cfg)
       && strict_eq password (ADMIN_PASSWORD cfg)
    then (Redirect "/admin", set_authenticated true w)
    else (Redirect "/login", w).

(** [GET /admin] behind [requireAuth], app.js:388-405. *)
Definition getAdmin : World -> Response * World :=
  fun w => (Render "admin" (Backend.select_ordered (blogs w)), w).

(** [GET /admin/edit/:slug] behind [requireAuth], app.js:408-426. *)
Definition getAdminEdit (slug : string) : World -> Response * World :=
  fun w =>
    match Backend.select_by_slug (blogs w) slug with
    | Some blog => (Render "edit" [blog], w)
    | None => (Redirect "/admin", w)
    end.

(** The [try] block of [POST /admin/edit/:slug], app.js:431-505. *)
Definition editBody (oldSlug : string)
    (title description remove_file : option string) (file : option File)
  : M Response :=
  t <- deref title ;;
  let newSlug := generateSlug t in
  rows <- read_blogs ;;
  let existingPost := Backend.select_conflict rows newSlug oldSlug in
  let newSlug :=
    match existingPost with
    | Some _ => newSlug ++ "-" ++ Str.of_N (now_slug env)
    | None => newSlug
    end in
  currentBlog <- deref (Backend.select_by_slug rows oldSlug) ;;
  let fileUrl := Blog.file_url currentBlog in
  fileUrl <-
    (if strict_eq remove_file (Some "on") && truthy fileUrl then
       match fileUrl with
       | Some u => storage_remove [Str.last_segment u]
       | None => ret tt
       end ;;;
       ret None
     else ret fileUrl) ;;
  fileUrl <-
    match file with
    | Some f =>
        (if truthy fileUrl then
           match fileUrl with
           | Some u => storage_remove [Str.last_segment u]
           | None => ret tt
           end
         else ret tt) ;;;
        let filename :=
          Str.of_N (now_file env) ++ extname cfg (originalname f) in
        e <- storage_upload (uploadError env) filename f ;;
        throw_if e ;;;
        ret (Some (getPublicUrl cfg filename))
    | None => ret fileUrl
    end ;;
  e <- db_write (updateError env)
         (Backend.update_rows oldSlug
            (Backend.patch t description fileUrl newSlug)) ;;
  throw_if e ;;;
  ret (Redirect "/admin").

(** [POST /admin/edit/:slug], app.js:429-510. *)
Definition postAdminEdit (oldSlug : string)
    (title description remove_file : option string) (file : option File)
  : World -> Response * World :=
  try_catch (editBody oldSlug title description remove_file file)
    (Send 500 "Error updating blog post").

(** The [try] block of [POST /admin/delete/:slug], app.js:515-539. *)
Definition deleteBody (slug : string) : M Response :=
  rows <- read_blogs ;;
  let blog := Backend.select_by_slug rows slug in
  match blog with
  | Some b =>
      if truthy (Blog.file_url b) then
        match Blog.file_url b with
        | Some u => storage_remove [Str.last_segment u]
        | None => ret tt
        end
      else ret tt
  | None => ret tt
  end ;;;
  e <- db_write (deleteError env) (Backend.delete_rows slug) ;;
  throw_if e ;;;
  ret (Redirect "/admin").

(** [POST /admin/delete/:slug], app.js:513-544. *)
Definition postAdminDelete (slug : string) : World -> Response * World :=
  try_catch (deleteBody slug) (Send 500 "Error deleting blog post").

(** The [while (slugExists)] loop of app.js:552-569, one probe per unit of
    fuel; [None] when the fuel runs out with the loop still going.  [counter]
    is a Number that holds an integer, exact up to 2^53, which is beyond the
    number of probes any table can cause; it is modelled as a natural
    number. *)
Fixpoint slugLoop (fuel : nat) (rows : list Blog.t) (slug finalSlug : string)
    (counter : N) : option string :=
  match fuel with
  | O => None
  | S fuel' =>
      match Backend.select_by_slug rows finalSlug with
      | None => Some finalSlug
      | Some _ =>
          slugLoop fuel' rows slug (slug ++ "-" ++ Str.of_N counter)
            (counter + 1)
      end
  end.

(** What follows the loop in [POST /admin/blog], app.js:571-604. *)
Definition createBody (t : string) (description : option string)
    (file : option File) (finalSlug : string) : M Response :=
  fileUrl <-
    match file with
    | Some f =>
        let filename :=
          Str.of_N (now_file env) ++ extname cfg (originalname f) in
        e <- storage_upload (uploadError env) filename f ;;
        throw_if e ;;;
        ret (Some (getPublicUrl cfg filename))
    | None => ret None
    end ;;
  e <- db_write (insertError env)
         (fun rows =>
            (rows ++ [Blog.make (insert_id env) t description fileUrl finalSlug
                        (insert_created_at env)])%list) ;;
  throw_if e ;;;
  ret (Redirect "/").

(** [POST /admin/blog], app.js:546-609.  [generateSlug(title)] throws inside
    the [try] when the title is not a string. *)
Definition postAdminBlog (fuel : nat) (title description : option string)
    (file : option File) : World -> option (Response * World) :=
  fun w =>
    match title with
    | None => Some (Send 500 "Error creating blog post", w)
    | Some t =>
        let slug := generateSlug t in
        match slugLoop fuel (blogs w) slug slug 1 with
        | None => None
        | Some finalSlug =>
            Some (try_catch (createBody t description file finalSlug)
                    (Send 500 "Error creating blog post") w)
        end
    end.

(** [GET /logout], app.js:611-614. *)
Definition getLogout : World -> Response * World :=
  fun w => (Redirect "/", set_authenticated false w).

(** The router.  [fuel] bounds the probes of the creation loop; the result is
    [None] only when that loop has not finished within it. *)
Definition handle (fuel : nat) (r : Request) (w : World)
  : option (Response * World) :=
  match r with
  | GetHome => Some (getHome w)
  | GetBlog slug => Some (getBlog slug w)
  | GetLogin => Some (getLogin w)
  | PostLogin u p => Some (postLogin u p w)
  | GetAdmin => requireAuth (fun w => Some (getAdmin w)) w
  | GetAdminEdit slug => requireAuth (fun w => Some (getAdminEdit slug w)) w
  | PostAdminEdit slug t d rf f =>
      requireAuth (fun w => Some (postAdminEdit slug t d rf f w)) w
  | PostAdminDelete slug =>
      requireAuth (fun w => Some (postAdminDelete slug w)) w
  | PostAdminBlog t d f => requireAuth (postAdminBlog fuel t d f) w
  | GetLogout => Some (getLogout w)
  end.

End Routes.

(** The value of [newSlug] once the conflict check of app.js:433-445 has
    run. *)
Definition edit_slug (env : Env) (rows : list Blog.t) (t oldSlug : string)
  : string :=
  match Backend.select_conflict rows (generateSlug t) oldSlug with
  | Some _ => generateSlug t ++ "-" ++ Str.of_N (now_slug env)
  | None => generateSlug t
  end.

(** ** Sample configuration and data *)

Definition sample_config : Config :=
  {| ADMIN_USERNAME := Some "admin";
     ADMIN_PASSWORD := Some "secret";
     extname := fun _ => ".pdf";
     getPublicUrl := fun n => "https://files.example/blog-files/" ++ n |}.

(** An environment in which every backend call succeeds. *)
Definition quiet_env (now id : N) : Env :=
  {| now_slug := now; now_file := now;
     uploadError := false; insertError := false;
     updateError := false; deleteError := false;
     insert_id := id; insert_created_at := now |}.

Definition admin_world (rows : list Blog.t) (os : list Object) : World :=
  {| isAuthenticated := true; blogs := rows; objects := os;
     storage_log := [] |}.

Definition hello1 : Blog.t :=
  Blog.make 1 "Hello World" (Some "first")
    (Some "https://files.example/blog-files/1730000000000.pdf")
    "hello-world" 1730000000000.

Definition hello2 : Blog.t :=
  Blog.make 2 "Hello World" (Some "second") None "hello-world-1" 1730000060000.

Definition hello_pdf : Object :=
  {| name := "1730000000000.pdf"; body := "%PDF";
     contentType := "application/pdf"; cacheControl := "3600" |}.

Definition hello_world : World := admin_world [hello1; hello2] [hello_pdf].

(** ** Predicates used to state properties *)

(** The characters a slug is made of: lower-case letters, digits, the
    underscore and the hyphen. *)
Definition slug_char (c : ascii) : bool :=
  Chars.is_lower c || Chars.is_digit c || (Chars.code c =? 95)
  || Chars.is_hyphen c.

(** No two neighbouring characters of [s] are both in the class [p]. *)
Fixpoint no_adjacent (p : ascii -> bool) (s : string) : bool :=
  match s with
  | EmptyString => true
  | String c r => negb (p c && Str.starts_with p r) && no_adjacent p r
  end.

Definition slash_free (s : string) : bool :=
  Str.forallb (fun d => negb (Chars.code d =? 47)) s.


(** The requests that only read. *)
Definition read_only (r : Request) : bool :=
  match r with
  | GetHome | GetBlog _ | GetLogin | GetAdmin | GetAdminEdit _ => true
  | _ => false
  end.

(** * Properties *)

(** ** Slug derivation *)

Section StringFacts.

Variable p : ascii -> bool.

Lemma strip_start_id (s : string) :
  Str.starts_with p s = false -> Str.strip_start p s = s.
Proof.
  destruct s as [|c r]; simpl; intros H; [reflexivity | now rewrite H].
Qed.

Lemma strip_end_id (s : string) :
  Str.ends_with p s = false -> Str.strip_end p s = s.
Proof.
  induction s as [|c r IH]; [reflexivity|].
  destruct r as [|d r'].
  - simpl. intros ->. reflexivity.
  - intros H. change (Str.ends_with p (String d r') = false) in H.
    change (Str.strip_end p (String c (String d r')))
      with (match Str.strip_end p (String d r') with
            | EmptyString => if p c then EmptyString else String c EmptyString
            | r0 => String c r0
            end).
    rewrite (IH H). reflexivity.
Qed.

Lemma strip_id (s : string) :
  Str.starts_with p s = false -> Str.ends_with p s = false ->
  Str.strip p s = s.
Proof.
  intros Hs He. unfold Str.strip. rewrite (strip_start_id _ Hs).
  now apply strip_end_id.
Qed.

Lemma forallb_starts_with (s : string) :
  Str.forallb (fun c => negb (p c)) s = true -> Str.starts_with p s = false.
Proof.
  destruct s as [|c r]; simpl; [reflexivity|].
  intros H. apply andb_true_iff in H. destruct H as [H _].
  now apply negb_true_iff in H.
Qed.

Lemma forallb_ends_with (s : string) :
  Str.forallb (fun c => negb (p c)) s = true -> Str.ends_with p s = false.
Proof.
  induction s as [|c r IH]; [reflexivity|].
  intros H. simpl in H. apply andb_true_iff in H. destruct H as [Hc Hr].
  destruct r as [|d r'].
  - simpl. now apply negb_true_iff in Hc.
  - change (Str.ends_with p (String d r') = false). now apply IH.
Qed.

(** Replacing the runs of a class by hyphens leaves no character of a class
    that the hyphen is not in. *)
Lemma replace_runs_free (q : ascii -> bool) (b : bool) (s : string) :
  q "-"%char = false ->
  (forall c, p c = false -> q c = true -> False) \/
  Str.forallb (fun c => negb (q c)) s = true ->
  Str.forallb (fun c => negb (q c)) (Str.replace_runs p b s) = true.
Proof.
  intros Hh Hs. revert b.
  induction s as [|c r IH]; intros b; [reflexivity|].
  assert (Hr : (forall c, p c = false -> q c = true -> False) \/
               Str.forallb (fun c => negb (q c)) r = true).
  { destruct Hs as [Hs|Hs]; [now left|right].
    simpl in Hs. now apply andb_true_iff in Hs. }
  simpl. destruct (p c) eqn:Hp.
  - destruct b; simpl; [|rewrite Hh; simpl]; now apply IH.
  - simpl. rewrite (IH Hr false), andb_true_r.
    destruct Hs as [Hs|Hs].
    + destruct (q c) eqn:Hq; [exfalso; eauto | reflexivity].
    + simpl in Hs. now apply andb_true_iff in Hs.
Qed.

End StringFacts.

Lemma slug_core_space_free (title : string) :
  Str.forallb (fun c => negb (Chars.is_space c)) (slug_core title) = true.
Proof.
  unfold slug_core.
  apply replace_runs_free; [reflexivity|right].
  apply replace_runs_free; [reflexivity|left].
  intros c H1 H2. congruence.
Qed.

(** The closing [.trim()] finds no whitespace left to strip. *)
Lemma generateSlug_core (title : string) : generateSlug title = slug_core title.
Proof.
  unfold generateSlug, Str.trim.
  change (Str.strip Chars.is_space (slug_core title) = slug_core title).
  apply strip_id.
  - apply forallb_starts_with, slug_core_space_free.
  - apply forallb_ends_with, slug_core_space_free.
Qed.

Lemma derive_word_keep (title : string) :
  derive_with word_keep title = Str.strip Chars.is_hyphen (generateSlug title).
Proof. now rewrite generateSlug_core. Qed.

(** C1 (as amended).  Whenever [generateSlug t] neither starts nor ends with
    a hyphen, it equals the result of lower-casing [t], removing every
    character that is not a letter, digit, underscore, whitespace or hyphen,
    collapsing each whitespace run into one hyphen, collapsing each hyphen
    run into one, and trimming the hyphens at both ends. *)
Theorem generateSlug_derivation (t : string) :
  edge_hyphen_free (generateSlug t) = true ->
  generateSlug t = derive_with word_keep t.
Proof.
  intros H. rewrite derive_word_keep.
  unfold edge_hyphen_free in H. apply andb_true_iff in H.
  destruct H as [Hs He].
  apply negb_true_iff in Hs. apply negb_true_iff in He.
  symmetry. now apply strip_id.
Qed.

Lemma generateSlug_derivation_witness :
  edge_hyphen_free (generateSlug "My First Post!") = true /\
  generateSlug "My First Post!" = "my-first-post" /\
  derive_with word_keep "My First Post!" = "my-first-post".
Proof.
  split; [reflexivity|].
  split; [reflexivity|].
  rewrite <- (generateSlug_derivation "My First Post!"); reflexivity.
Defined.

(** C1 (as stated) fails: the code keeps an underscore, which is none of
    letter, digit, whitespace or hyphen, and its closing [trim] removes
    whitespace, of which none is left, so a hyphen at either end stays. *)
Lemma generateSlug_not_spec_slug :
  generateSlug "a_b" <> spec_slug "a_b" /\
  generateSlug " Hello World " <> spec_slug " Hello World ".
Proof. split; intros H; vm_compute in H; discriminate H. Qed.

(** ** The slugs the creation loop tries *)

Lemma of_N_inj (a b : N) : Str.of_N a = Str.of_N b -> a = b.
Proof.
  unfold Str.of_N. intros H.
  apply DecimalN.Unsigned.to_uint_inj.
  assert (E : Some (N.to_uint a) = Some (N.to_uint b)).
  { rewrite <- (NilEmpty.usu (N.to_uint a)), <- (NilEmpty.usu (N.to_uint b)).
    now rewrite H. }
  now injection E.
Qed.

Lemma append_inj_r (s a b : string) : s ++ a = s ++ b -> a = b.
Proof.
  induction s as [|c r IH]; simpl; intros H; [exact H|].
  injection H as H. now apply IH.
Qed.

Lemma length_append (s a : string) :
  String.length (s ++ a) = (String.length s + String.length a)%nat.
Proof. induction s as [|c r IH]; simpl; [reflexivity | now rewrite IH]. Qed.

(** A suffixed slug is longer than its base, hence never equal to it. *)
Lemma suffixed_neq_base (s x : string) : s ++ "-" ++ x <> s.
Proof.
  intros H. apply (f_equal String.length) in H.
  rewrite length_append in H. simpl in H. lia.
Qed.

Lemma candidate_succ (s : string) (k : N) :
  candidate s (k + 1) = s ++ "-" ++ Str.of_N (k + 1).
Proof.
  unfold candidate. destruct (N.eqb_spec (k + 1) 0) as [E|_]; [lia|reflexivity].
Qed.

Lemma candidate_inj (s : string) (i j : N) :
  candidate s i = candidate s j -> i = j.
Proof.
  unfold candidate.
  destruct (N.eqb_spec i 0) as [Hi|Hi], (N.eqb_spec j 0) as [Hj|Hj]; intros H.
  - congruence.
  - symmetry in H. now apply suffixed_neq_base in H.
  - now apply suffixed_neq_base in H.
  - apply append_inj_r in H. simpl in H. injection H as H.
    now apply of_N_inj.
Qed.

Section Lookup.

Variable rows : list Blog.t.

Lemma slug_is_true (s : string) (r : Blog.t) :
  Backend.slug_is s r = true <-> Blog.slug r = s.
Proof. unfold Backend.slug_is. apply String.eqb_eq. Qed.

Lemma slug_is_false (s : string) (r : Blog.t) :
  Backend.slug_is s r = false <-> Blog.slug r <> s.
Proof. unfold Backend.slug_is. apply String.eqb_neq. Qed.

Lemma select_some_in (s : string) (r : Blog.t) :
  Backend.select_by_slug rows s = Some r -> In r rows /\ Blog.slug r = s.
Proof.
  unfold Backend.select_by_slug, Backend.single. intros H.
  destruct (filter (Backend.slug_is s) rows) as [|x [|y l]] eqn:E;
    try discriminate H.
  injection H as ->.
  assert (Hin : In r (filter (Backend.slug_is s) rows)) by (rewrite E; now left).
  apply filter_In in Hin. destruct Hin as [Hin Hs].
  split; [exact Hin | now apply slug_is_true].
Qed.

Lemma select_taken_in (s : string) :
  Backend.select_by_slug rows s <> None -> In s (slugs rows).
Proof.
  destruct (Backend.select_by_slug rows s) as [r|] eqn:E; [|congruence].
  intros _. apply select_some_in in E. destruct E as [Hin <-].
  unfold slugs. now apply in_map.
Qed.

End Lookup.

Lemma filter_slug_nil (rows : list Blog.t) (s : string) :
  ~ In s (slugs rows) -> filter (Backend.slug_is s) rows = [].
Proof.
  induction rows as [|r rows IH]; [reflexivity|].
  simpl. intros H.
  destruct (Backend.slug_is s r) eqn:E.
  - apply slug_is_true in E. exfalso. apply H. now left.
  - apply IH. intros Hin. apply H. now right.
Qed.

Lemma filter_slug_single (rows : list Blog.t) (r : Blog.t) :
  NoDup (slugs rows) -> In r rows ->
  filter (Backend.slug_is (Blog.slug r)) rows = [r].
Proof.
  induction rows as [|x rows IH]; [intros _ []|].
  simpl. intros Hnd Hin. inversion Hnd as [|? ? Hx Hnd']; subst.
  destruct Hin as [->|Hin].
  - rewrite (proj2 (slug_is_true (Blog.slug r) r) eq_refl).
    now rewrite (filter_slug_nil _ _ Hx).
  - destruct (Backend.slug_is (Blog.slug r) x) eqn:E.
    + apply slug_is_true in E. exfalso. apply Hx. rewrite E.
      unfold slugs. now apply in_map.
    + now apply IH.
Qed.

Lemma select_unique (rows : list Blog.t) (r : Blog.t) :
  NoDup (slugs rows) -> In r rows ->
  Backend.select_by_slug rows (Blog.slug r) = Some r.
Proof.
  intros Hnd Hin. unfold Backend.select_by_slug.
  now rewrite (filter_slug_single _ _ Hnd Hin).
Qed.

Lemma select_absent (rows : list Blog.t) (s : string) :
  ~ In s (slugs rows) -> Backend.select_by_slug rows s = None.
Proof.
  intros H. unfold Backend.select_by_slug. now rewrite (filter_slug_nil _ _ H).
Qed.

(** On a table whose slugs are pairwise distinct, the lookup finds no data
    exactly for the slugs that no row holds. *)
Lemma select_none_iff (rows : list Blog.t) (s : string) :
  NoDup (slugs rows) ->
  Backend.select_by_slug rows s = None <-> ~ In s (slugs rows).
Proof.
  intros Hnd. split.
  - intros H Hin. unfold slugs in Hin. apply in_map_iff in Hin.
    destruct Hin as [r [<- Hin]].
    rewrite (select_unique _ _ Hnd Hin) in H. discriminate H.
  - apply select_absent.
Qed.

(** A search through the first [n] naturals either finds a least hit or
    finds none. *)
Lemma least_below (P : nat -> bool) (n : nat) :
  (exists j, (j < n)%nat /\ P j = true /\ forall i, (i < j)%nat -> P i = false)
  \/ (forall j, (j < n)%nat -> P j = false).
Proof.
  induction n as [|n [[j [Hj [Hp Hl]]]|IH]].
  - right. intros j Hj. lia.
  - left. exists j. repeat split; [lia | exact Hp | exact Hl].
  - destruct (P n) eqn:E.
    + left. exists n. repeat split; [lia | exact E | exact IH].
    + right. intros j Hj.
      destruct (Nat.eq_dec j n) as [->|Hne]; [exact E | apply IH; lia].
Qed.

Section Probe.

Variable rows : list Blog.t.
Variable slug : string.

(** More candidates than rows cannot all be held by a row. *)
Lemma some_candidate_free :
  ~ (forall j, (j < S (List.length rows))%nat -> candidate_free rows slug j = false).
Proof.
  intros H.
  set (cs := map (fun j => candidate slug (N.of_nat j)) (seq 0 (S (List.length rows)))).
  assert (Hnd : NoDup cs).
  { unfold cs. apply Injective_map_NoDup; [|apply seq_NoDup].
    intros i j E. apply candidate_inj in E. lia. }
  assert (Hincl : incl cs (slugs rows)).
  { intros c Hc. unfold cs in Hc. apply in_map_iff in Hc.
    destruct Hc as [j [<- Hj]]. apply in_seq in Hj.
    apply select_taken_in. specialize (H j ltac:(lia)).
    unfold candidate_free in H.
    destruct (Backend.select_by_slug rows (candidate slug (N.of_nat j)));
      [discriminate | discriminate H]. }
  pose proof (NoDup_incl_length Hnd Hincl) as Hlen.
  unfold cs, slugs in Hlen. rewrite !length_map, length_seq in Hlen. lia.
Qed.

Lemma first_free_exists :
  exists j, (j <= List.length rows)%nat /\ candidate_free rows slug j = true /\
            forall i, (i < j)%nat -> candidate_free rows slug i = false.
Proof.
  destruct (least_below (candidate_free rows slug) (S (List.length rows)))
    as [[j [Hj [Hp Hl]]]|H].
  - exists j. repeat split; [lia | exact Hp | exact Hl].
  - exfalso. now apply some_candidate_free.
Qed.

(** From the loop state reached after [k] probes, the loop returns the first
    free candidate at or after [k], given fuel to reach it. *)
Lemma slugLoop_reaches (j k fuel : nat) :
  (j < fuel)%nat ->
  candidate_free rows slug (k + j) = true ->
  (forall i, (i < j)%nat -> candidate_free rows slug (k + i) = false) ->
  slugLoop fuel rows slug (candidate slug (N.of_nat k)) (N.of_nat k + 1)
  = Some (candidate slug (N.of_nat (k + j))).
Proof.
  revert k fuel. induction j as [|j IH]; intros k fuel Hf Hfree Hheld.
  - destruct fuel as [|fuel]; [lia|]. cbn [slugLoop].
    rewrite Nat.add_0_r in Hfree |- *. unfold candidate_free in Hfree.
    destruct (Backend.select_by_slug rows (candidate slug (N.of_nat k)));
      [discriminate Hfree | reflexivity].
  - destruct fuel as [|fuel]; [lia|]. cbn [slugLoop].
    pose proof (Hheld 0%nat ltac:(lia)) as H0.
    rewrite Nat.add_0_r in H0. unfold candidate_free in H0.
    destruct (Backend.select_by_slug rows (candidate slug (N.of_nat k)));
      [|discriminate H0].
    rewrite <- candidate_succ.
    replace (N.of_nat k + 1) with (N.of_nat (S k)) by lia.
    replace (k + S j)%nat with (S k + j)%nat by lia.
    apply IH; [lia | |].
    + now replace (S k + j)%nat with (k + S j)%nat by lia.
    + intros i Hi. replace (S k + i)%nat with (k + S i)%nat by lia.
      apply Hheld. lia.
Qed.

(** The loop as entered by the handler. *)
Lemma slugLoop_first_free :
  exists j, (j <= List.length rows)%nat /\
    Backend.select_by_slug rows (candidate slug (N.of_nat j)) = None /\
    (forall i, (i < j)%nat ->
       Backend.select_by_slug rows (candidate slug (N.of_nat i)) <> None) /\
    (forall fuel, (j < fuel)%nat ->
       slugLoop fuel rows slug slug 1 = Some (candidate slug (N.of_nat j))).
Proof.
  destruct first_free_exists as [j [Hj [Hfree Hheld]]].
  exists j. split; [exact Hj|]. split; [|split].
  - unfold candidate_free in Hfree.
    destruct (Backend.select_by_slug rows (candidate slug (N.of_nat j)));
      [discriminate Hfree | reflexivity].
  - intros i Hi. specialize (Hheld i Hi). unfold candidate_free in Hheld.
    destruct (Backend.select_by_slug rows (candidate slug (N.of_nat i)));
      [discriminate | discriminate Hheld].
  - intros fuel Hf.
    exact (slugLoop_reaches 0 Hf Hfree Hheld).
Qed.

End Probe.

(** C5.  For every table (a finite list of rows) and every title, the
    creation loop stops after at most one probe more than there are rows:
    it returns a slug for which the lookup finds no data, whatever fuel is
    left beyond the probes it makes. *)
Theorem creation_probe_terminates (rows : list Blog.t) (t : string) :
  exists (n : nat) (finalSlug : string),
    (n <= List.length rows)%nat /\
    Backend.select_by_slug rows finalSlug = None /\
    forall extra : nat,
      slugLoop (S (n + extra)) rows (generateSlug t) (generateSlug t) 1
      = Some finalSlug.
Proof.
  destruct (slugLoop_first_free rows (generateSlug t))
    as [j [Hj [Hfree [_ Hrun]]]].
  exists j, (candidate (generateSlug t) (N.of_nat j)).
  split; [exact Hj|]. split; [exact Hfree|].
  intros extra. apply Hrun. lia.
Qed.

(** ** Running the handlers *)

Ltac run_handler :=
  unfold postAdminEdit, postAdminDelete, try_catch, editBody, deleteBody,
    createBody, db_write, throw_if, deref;
  unfold storage_remove, storage_upload, read_blogs, write_blogs;
  unfold bind, ret, throw;
  cbv beta zeta;
  cbn [fst snd blogs objects storage_log isAuthenticated].

Lemma handle_create_authenticated (cfg : Config) (env : Env) (fuel : nat)
    (t : string) (d : option string) (f : option File) (w : World)
    (finalSlug : string) :
  isAuthenticated w = true ->
  slugLoop fuel (blogs w) (generateSlug t) (generateSlug t) 1 = Some finalSlug ->
  handle cfg env fuel (PostAdminBlog (Some t) d f) w
  = Some (try_catch (createBody cfg env t d f finalSlug)
            (Send 500 "Error creating blog post") w).
Proof.
  intros Ha Hl. unfold handle, requireAuth, postAdminBlog.
  now rewrite Ha, Hl.
Qed.

Lemma create_success (cfg : Config) (env : Env) (t : string)
    (d : option string) (f : option File) (finalSlug : string) (w : World) :
  uploadError env = false -> insertError env = false ->
  exists w' r,
    try_catch (createBody cfg env t d f finalSlug)
      (Send 500 "Error creating blog post") w = (Redirect "/", w') /\
    blogs w' = (blogs w ++ [r])%list /\
    Blog.slug r = finalSlug /\ Blog.title r = t.
Proof.
  intros Hu Hi. run_handler. rewrite Hu, Hi.
  destruct f as [f|]; cbn; eexists; eexists; (split; [reflexivity|]);
    cbn; (split; [reflexivity|]); split; reflexivity.
Qed.

(** Every request is answered once the creation loop has made its probes,
    at most one more than the table has rows. *)
Lemma handle_answers (cfg : Config) (env : Env) (r : Request) (w : World) :
  exists n : nat,
    (n <= List.length (blogs w))%nat /\
    forall extra : nat,
    exists res : Response * World,
      handle cfg env (S (n + extra)) r w = Some res.
Proof.
  destruct r as [| | | | | | | |t d f|];
    try (exists 0%nat; split; [lia|]; intros extra; unfold handle, requireAuth;
         destruct (isAuthenticated w); eexists; reflexivity).
  destruct (isAuthenticated w) eqn:Ha.
  - destruct t as [t|].
    + destruct (slugLoop_first_free (blogs w) (generateSlug t))
        as [k [Hk [_ [_ Hrun]]]].
      exists k. split; [exact Hk|]. intros extra. eexists.
      exact (@handle_create_authenticated cfg env _ t d f w _ Ha
               (Hrun (S (k + extra)) ltac:(lia))).
    + exists 0%nat. split; [lia|]. intros extra.
      unfold handle, requireAuth, postAdminBlog. rewrite Ha.
      eexists; reflexivity.
  - exists 0%nat. split; [lia|]. intros extra.
    unfold handle, requireAuth. rewrite Ha. eexists; reflexivity.
Qed.

(** C2.  On a table whose slugs are pairwise distinct, a create request with
    title [t] is answered once the loop has made its probes, and the slug of
    the inserted row is the first of [generateSlug t], [generateSlug t-1],
    [generateSlug t-2], ... that no row holds; two posts titled
    "Hello World" created in sequence on an empty table get [hello-world] and
    [hello-world-1]. *)
Theorem create_assigns_first_free_slug :
  (forall (cfg : Config) (env : Env) (w : World) (t : string)
          (d : option string) (f : option File),
      isAuthenticated w = true ->
      NoDup (slugs (blogs w)) ->
      uploadError env = false ->
      insertError env = false ->
      exists (k : nat) (w' : World) (r : Blog.t),
        (forall extra : nat,
            handle cfg env (S (k + extra)) (PostAdminBlog (Some t) d f) w
            = Some (Redirect "/", w')) /\
        blogs w' = (blogs w ++ [r])%list /\
        Blog.slug r = candidate (generateSlug t) (N.of_nat k) /\
        ~ In (Blog.slug r) (slugs (blogs w)) /\
        (forall i : nat, (i < k)%nat ->
            In (candidate (generateSlug t) (N.of_nat i)) (slugs (blogs w))))
  /\
  (forall (cfg : Config) (env1 env2 : Env) (d1 d2 : option string),
      insertError env1 = false ->
      insertError env2 = false ->
      exists w1 w2 : World,
        handle cfg env1 1 (PostAdminBlog (Some "Hello World") d1 None)
          (admin_world [] [])
        = Some (Redirect "/", w1) /\
        handle cfg env2 2 (PostAdminBlog (Some "Hello World") d2 None) w1
        = Some (Redirect "/", w2) /\
        slugs (blogs w1) = ["hello-world"] /\
        slugs (blogs w2) = ["hello-world"; "hello-world-1"]).
Proof.
  split.
  - intros cfg env w t d f Ha Hnd Hu Hi.
    destruct (slugLoop_first_free (blogs w) (generateSlug t))
      as [k [_ [Hfree [Hheld Hrun]]]].
    destruct (@create_success cfg env t d f
                (candidate (generateSlug t) (N.of_nat k)) w Hu Hi)
      as [w' [r [Hrun' [Hb [Hs Ht]]]]].
    exists k, w', r. repeat split.
    + intros extra.
      rewrite (@handle_create_authenticated cfg env _ t d f w _ Ha
                 (Hrun (S (k + extra)) ltac:(lia))).
      now rewrite Hrun'.
    + exact Hb.
    + exact Hs.
    + rewrite Hs. now apply select_none_iff.
    + intros i Hi'. apply select_taken_in. now apply Hheld.
  - intros cfg env1 env2 d1 d2 H1 H2.
    eexists. eexists.
    unfold handle, requireAuth, postAdminBlog. cbn.
    run_handler. rewrite H1. cbn. run_handler. rewrite H2. cbn.
    repeat split; reflexivity.
Qed.

Lemma create_assigns_first_free_slug_witness :
  exists (k : nat) (w' : World) (r : Blog.t),
    (forall extra : nat,
        handle sample_config (quiet_env 1730000120000 3) (S (k + extra))
          (PostAdminBlog (Some "Hello World") None None) hello_world
        = Some (Redirect "/", w')) /\
    blogs w' = (blogs hello_world ++ [r])%list /\
    Blog.slug r = candidate (generateSlug "Hello World") (N.of_nat k) /\
    ~ In (Blog.slug r) (slugs (blogs hello_world)) /\
    (forall i : nat, (i < k)%nat ->
        In (candidate (generateSlug "Hello World") (N.of_nat i))
          (slugs (blogs hello_world))).
Proof.
  apply (proj1 create_assigns_first_free_slug).
  - reflexivity.
  - repeat constructor; cbn; intuition discriminate.
  - reflexivity.
  - reflexivity.
Defined.

(** ** Authentication *)

(** C6.  A request to an admin-scoped route (admin list, edit form, submit
    edit, submit create, delete) made with an unauthenticated session is
    answered by a redirect to [/login], and the world (session, table, bucket
    and the calls made to the bucket) is exactly what it was. *)
Theorem unauthenticated_admin_redirects (cfg : Config) (env : Env)
    (fuel : nat) (r : Request) (w : World) :
  admin_scoped r = true ->
  isAuthenticated w = false ->
  handle cfg env fuel r w = Some (Redirect "/login", w).
Proof.
  intros Hr Hw.
  destruct r; try discriminate Hr; unfold handle, requireAuth;
    now rewrite Hw.
Qed.

Lemma unauthenticated_admin_redirects_witness :
  handle sample_config (quiet_env 1730000120000 3) 0
    (PostAdminDelete "hello-world")
    (set_authenticated false hello_world)
  = Some (Redirect "/login", set_authenticated false hello_world).
Proof.
  apply unauthenticated_admin_redirects; reflexivity.
Defined.

(** C7.  Two login submissions that both fail the comparison with the
    configured credentials have the same outcome from the same world: the
    response is a redirect to [/login] whichever field was wrong, and the
    world, and with it the session flag, is unchanged. *)
Theorem failed_logins_indistinguishable (cfg : Config) (env : Env)
    (fuel : nat) (w : World) (u1 p1 u2 p2 : option string) :
  strict_eq u1 (ADMIN_USERNAME cfg) && strict_eq p1 (ADMIN_PASSWORD cfg) = false ->
  strict_eq u2 (ADMIN_USERNAME cfg) && strict_eq p2 (ADMIN_PASSWORD cfg) = false ->
  handle cfg env fuel (PostLogin u1 p1) w = handle cfg env fuel (PostLogin u2 p2) w /\
  handle cfg env fuel (PostLogin u1 p1) w = Some (Redirect "/login", w).
Proof.
  intros H1 H2. unfold handle, postLogin. now rewrite H1, H2.
Qed.

Lemma failed_logins_indistinguishable_witness :
  let w := set_authenticated false hello_world in
  handle sample_config (quiet_env 0 0) 0
    (PostLogin (Some "root") (Some "secret")) w
  = handle sample_config (quiet_env 0 0) 0
      (PostLogin (Some "admin") (Some "guess")) w /\
  handle sample_config (quiet_env 0 0) 0
    (PostLogin (Some "root") (Some "secret")) w
  = Some (Redirect "/login", w).
Proof.
  apply failed_logins_indistinguishable; reflexivity.
Defined.

(** ** Editing *)

Lemma handle_edit_authenticated (cfg : Config) (env : Env) (fuel : nat)
    (s : string) (t d rf : option string) (f : option File) (w : World) :
  isAuthenticated w = true ->
  handle cfg env fuel (PostAdminEdit s t d rf f) w
  = Some (postAdminEdit cfg env s t d rf f w).
Proof. intros Ha. unfold handle, requireAuth. now rewrite Ha. Qed.

(** C10.  A submit-edit request whose slug parameter matches no stored post
    is answered with status 500 and the text [Error updating blog post], not
    with a redirect, and nothing in the world changes: the lookup of the
    current post has no data, reading its [file_url] throws before any call
    that writes, and the handler's [catch] answers. *)
Theorem edit_unknown_slug_is_server_error (cfg : Config) (env : Env)
    (fuel : nat) (s : string) (t d rf : option string) (f : option File)
    (w : World) :
  isAuthenticated w = true ->
  (forall r, In r (blogs w) -> Blog.slug r <> s) ->
  handle cfg env fuel (PostAdminEdit s t d rf f) w
  = Some (Send 500 "Error updating blog post", w).
Proof.
  intros Ha Hs. rewrite (handle_edit_authenticated cfg env fuel s t d rf f w Ha).
  assert (Hnone : Backend.select_by_slug (blogs w) s = None).
  { apply select_absent. intros Hin. unfold slugs in Hin.
    apply in_map_iff in Hin. destruct Hin as [r [E Hr]].
    exact (Hs r Hr E). }
  run_handler. destruct t as [t|]; [|reflexivity].
  now rewrite Hnone.
Qed.

Lemma edit_unknown_slug_is_server_error_witness :
  handle sample_config (quiet_env 1730000120000 3) 0
    (PostAdminEdit "no-such-post" (Some "New title") (Some "text") None None)
    hello_world
  = Some (Send 500 "Error updating blog post", hello_world).
Proof.
  apply edit_unknown_slug_is_server_error; [reflexivity|].
  intros r [<-|[<-|[]]]; discriminate.
Defined.

(** ** Deleting *)

Lemma delete_rows_in (s : string) (rows : list Blog.t) (r : Blog.t) :
  In r (Backend.delete_rows s rows) <-> In r rows /\ Blog.slug r <> s.
Proof.
  unfold Backend.delete_rows. rewrite filter_In, negb_true_iff.
  now rewrite slug_is_false.
Qed.

Lemma select_after_delete (s : string) (rows : list Blog.t) :
  Backend.select_by_slug (Backend.delete_rows s rows) s = None.
Proof.
  apply select_absent. intros Hin. unfold slugs in Hin.
  apply in_map_iff in Hin. destruct Hin as [r [E Hr]].
  apply delete_rows_in in Hr. now destruct Hr as [_ Hr].
Qed.

Lemma remove_objects_in (n : string) (os : list Object) (o : Object) :
  In o (Backend.remove_objects [n] os) -> name o <> n.
Proof.
  unfold Backend.remove_objects, Backend.named_in. rewrite filter_In.
  intros [_ H]. cbn in H. rewrite orb_false_r in H.
  apply negb_true_iff in H. now apply String.eqb_neq in H.
Qed.

Lemma truthy_nonempty (u : string) : u <> "" -> truthy (Some u) = true.
Proof. destruct u; [congruence | reflexivity]. Qed.

(** C8.  On a table whose slugs are pairwise distinct, deleting a stored post
    [p] whose [file_url] is set, when the record delete succeeds and no other
    post points at the same object: the object is removed from the bucket
    by one call, [p]'s row is deleted, no remaining row references the
    object, and fetching [p]'s old slug redirects to the list (not found). *)
Theorem delete_removes_file_and_post (cfg : Config) (env : Env) (fuel : nat)
    (w : World) (p : Blog.t) (u : string) :
  isAuthenticated w = true ->
  NoDup (slugs (blogs w)) ->
  In p (blogs w) ->
  Blog.file_url p = Some u ->
  u <> "" ->
  (forall q, In q (blogs w) -> Blog.slug q <> Blog.slug p ->
             references (Str.last_segment u) q = false) ->
  deleteError env = false ->
  exists w' : World,
    handle cfg env fuel (PostAdminDelete (Blog.slug p)) w
    = Some (Redirect "/admin", w') /\
    storage_log w' = (storage_log w ++ [CallRemove [Str.last_segment u]])%list /\
    (forall o, In o (objects w') -> name o <> Str.last_segment u) /\
    ~ In p (blogs w') /\
    (forall q, In q (blogs w') -> references (Str.last_segment u) q = false) /\
    (forall (env' : Env) (fuel' : nat),
        handle cfg env' fuel' (GetBlog (Blog.slug p)) w' = Some (Redirect "/", w')).
Proof.
  intros Ha Hnd Hp Hu Hne Hothers Hd.
  unfold handle, requireAuth. rewrite Ha.
  run_handler.
  rewrite (select_unique _ _ Hnd Hp), Hu, (truthy_nonempty Hne), Hd.
  cbn [fst snd blogs objects storage_log isAuthenticated].
  eexists. split; [reflexivity|].
  cbn [fst snd blogs objects storage_log isAuthenticated].
  split; [reflexivity|]. split; [|split; [|split]].
  - intros o Ho. now apply remove_objects_in in Ho.
  - intros Hin. apply delete_rows_in in Hin. now destruct Hin.
  - intros q Hq. apply delete_rows_in in Hq. destruct Hq as [Hq Hs].
    now apply Hothers.
  - intros env' fuel'. unfold getBlog.
    cbn [fst snd blogs objects storage_log isAuthenticated].
    now rewrite select_after_delete.
Qed.

Lemma delete_removes_file_and_post_witness :
  exists w' : World,
    handle sample_config (quiet_env 1730000120000 3) 0
      (PostAdminDelete "hello-world") hello_world
    = Some (Redirect "/admin", w') /\
    storage_log w' = [CallRemove ["1730000000000.pdf"]] /\
    (forall o, In o (objects w') -> name o <> "1730000000000.pdf") /\
    ~ In hello1 (blogs w') /\
    (forall q, In q (blogs w') -> references "1730000000000.pdf" q = false) /\
    (forall (env' : Env) (fuel' : nat),
        handle sample_config env' fuel' (GetBlog "hello-world") w'
        = Some (Redirect "/", w')).
Proof.
  apply (@delete_removes_file_and_post sample_config
           (quiet_env 1730000120000 3) 0 hello_world hello1
           "https://files.example/blog-files/1730000000000.pdf").
  - reflexivity.
  - repeat constructor; cbn; intuition discriminate.
  - now left.
  - reflexivity.
  - discriminate.
  - intros q [<-|[<-|[]]] H; [now contradiction H | reflexivity].
  - reflexivity.
Defined.

(** ** The effect of an edit on the table *)

Ltac split_conditions :=
  repeat match goal with
    | |- context [if ?b then _ else _] => destruct b eqn:?
    | |- context [match ?o with Some _ => _ | None => _ end] =>
        destruct o eqn:?
    end;
  cbn [fst snd blogs objects storage_log isAuthenticated].

(** An edit either leaves the table as it was or patches the rows that hold
    the old slug, giving them the slug that the conflict check settled on. *)
Lemma edit_table_effect (cfg : Config) (env : Env) (s t : string)
    (d rf : option string) (f : option File) (w : World) :
  let w' := snd (postAdminEdit cfg env s (Some t) d rf f w) in
  blogs w' = blogs w \/
  exists fu : option string,
    blogs w' = Backend.update_rows s
                 (Backend.patch t d fu (edit_slug env (blogs w) t s)) (blogs w).
Proof.
  unfold edit_slug. run_handler.
  destruct (Backend.select_by_slug (blogs w) s) as [cur|]; [|now left].
  destruct (strict_eq rf (Some "on") && truthy (Blog.file_url cur));
    destruct (Blog.file_url cur) as [u|]; destruct f as [f|];
    cbn [fst snd blogs objects storage_log isAuthenticated];
    split_conditions;
    solve [ now left | right; eexists; reflexivity ].
Qed.

(** When the current post is found and the upload and the update succeed,
    the edit redirects to the admin list and the patch is applied. *)
Lemma edit_success (cfg : Config) (env : Env) (s t : string)
    (d rf : option string) (f : option File) (w : World) (cur : Blog.t) :
  Backend.select_by_slug (blogs w) s = Some cur ->
  uploadError env = false ->
  updateError env = false ->
  exists (w' : World) (fu : option string),
    postAdminEdit cfg env s (Some t) d rf f w = (Redirect "/admin", w') /\
    blogs w' = Backend.update_rows s
                 (Backend.patch t d fu (edit_slug env (blogs w) t s)) (blogs w).
Proof.
  intros Hcur Hu Hw. unfold edit_slug. run_handler.
  rewrite Hcur, Hu, Hw.
  destruct (strict_eq rf (Some "on") && truthy (Blog.file_url cur));
    destruct (Blog.file_url cur) as [u|]; destruct f as [f|];
    cbn [fst snd blogs objects storage_log isAuthenticated];
    split_conditions;
    eexists; eexists; split; reflexivity.
Qed.

Lemma update_rows_ids (s : string) (g : Blog.t -> Blog.t) (rows : list Blog.t) :
  (forall r, Blog.id (g r) = Blog.id r) ->
  map Blog.id (Backend.update_rows s g rows) = map Blog.id rows.
Proof.
  intros Hg. unfold Backend.update_rows. rewrite map_map.
  apply map_ext. intros r. now destruct (Backend.slug_is s r).
Qed.

Lemma update_rows_same_slug (s t : string) (d fu : option string)
    (rows : list Blog.t) :
  slugs (Backend.update_rows s (Backend.patch t d fu s) rows) = slugs rows.
Proof.
  unfold slugs, Backend.update_rows. rewrite map_map.
  apply map_ext. intros r.
  destruct (Backend.slug_is s r) eqn:E; [|reflexivity].
  apply slug_is_true in E. now rewrite E.
Qed.

Lemma update_rows_in (s : string) (g : Blog.t -> Blog.t) (rows : list Blog.t)
    (r : Blog.t) :
  In r rows ->
  In (if Backend.slug_is s r then g r else r) (Backend.update_rows s g rows).
Proof.
  intros H. unfold Backend.update_rows.
  now apply (in_map (fun r => if Backend.slug_is s r then g r else r)).
Qed.

(** A slug is never in conflict with itself: the check excludes the rows
    that hold the old slug. *)
Lemma select_conflict_self (rows : list Blog.t) (s : string) :
  Backend.select_conflict rows s s = None.
Proof.
  unfold Backend.select_conflict.
  replace (filter (fun r => Backend.slug_is s r && negb (Backend.slug_is s r)) rows)
    with (@nil Blog.t); [reflexivity|].
  induction rows as [|r rows IH]; [reflexivity|].
  cbn. now rewrite andb_negb_r.
Qed.

Lemma select_conflict_other (rows : list Blog.t) (q : Blog.t) (old : string) :
  NoDup (slugs rows) -> In q rows -> Blog.slug q <> old ->
  Backend.select_conflict rows (Blog.slug q) old = Some q.
Proof.
  intros Hnd Hq Hne. unfold Backend.select_conflict.
  replace (filter (fun r => Backend.slug_is (Blog.slug q) r
                            && negb (Backend.slug_is old r)) rows)
    with (filter (Backend.slug_is (Blog.slug q)) rows).
  - now rewrite (filter_slug_single _ _ Hnd Hq).
  - apply filter_ext. intros r.
    destruct (Backend.slug_is (Blog.slug q) r) eqn:E; [|reflexivity].
    apply slug_is_true in E.
    assert (Ho : Backend.slug_is old r = false)
      by (apply slug_is_false; congruence).
    now rewrite Ho.
Qed.

(** C3 (as stated) fails: the second of two posts titled "Hello World"
    holds [hello-world-1]; submitting its edit form with the title unchanged
    recomputes [hello-world], finds it held by the first post, and stores
    [hello-world-<timestamp>]. *)
Lemma edit_same_title_changes_slug :
  In hello2 (blogs hello_world) /\
  exists w' : World,
    handle sample_config (quiet_env 1730000120000 3) 0
      (PostAdminEdit (Blog.slug hello2) (Some (Blog.title hello2))
         (Blog.description hello2) None None)
      hello_world
    = Some (Redirect "/admin", w') /\
    slugs (blogs hello_world) = ["hello-world"; "hello-world-1"] /\
    slugs (blogs w') = ["hello-world"; "hello-world-1730000120000"].
Proof.
  split; [right; now left|].
  eexists. split; [reflexivity|]. split; reflexivity.
Qed.

(** C3 (as amended).  For a stored post [p] whose slug is [generateSlug] of
    its title (no suffix was added when it was assigned) and an edit request
    for [p] that submits the title unchanged, every row keeps its id and its
    slug; in particular [p]'s slug after the edit is its slug before. *)
Theorem edit_same_title_keeps_slug (cfg : Config) (env : Env) (fuel : nat)
    (w : World) (p : Blog.t) (d rf : option string) (f : option File) :
  In p (blogs w) ->
  Blog.slug p = generateSlug (Blog.title p) ->
  exists (resp : Response) (w' : World) (p' : Blog.t),
    handle cfg env fuel
      (PostAdminEdit (Blog.slug p) (Some (Blog.title p)) d rf f) w
    = Some (resp, w') /\
    map Blog.id (blogs w') = map Blog.id (blogs w) /\
    slugs (blogs w') = slugs (blogs w) /\
    In p' (blogs w') /\ Blog.id p' = Blog.id p /\ Blog.slug p' = Blog.slug p.
Proof.
  intros Hp Hs.
  destruct (isAuthenticated w) eqn:Ha.
  - rewrite (handle_edit_authenticated cfg env fuel _ _ d rf f w Ha).
    destruct (postAdminEdit cfg env (Blog.slug p) (Some (Blog.title p)) d rf f w)
      as [resp w'] eqn:E.
    pose proof (edit_table_effect cfg env (Blog.slug p) (Blog.title p) d rf f w)
      as He.
    rewrite E in He. cbn [snd] in He.
    destruct He as [He|[fu He]].
    + exists resp, w', p. rewrite He. now repeat split.
    + unfold edit_slug in He. rewrite <- Hs, select_conflict_self in He.
      exists resp, w', (Backend.patch (Blog.title p) d fu (Blog.slug p) p).
      rewrite He. split; [reflexivity|]. split; [|split; [|split]].
      * now apply update_rows_ids.
      * apply update_rows_same_slug.
      * pose proof (update_rows_in (Blog.slug p)
                      (Backend.patch (Blog.title p) d fu (Blog.slug p)) _ _ Hp)
          as Hin.
        now rewrite (proj2 (slug_is_true (Blog.slug p) p) eq_refl) in Hin.
      * now split.
  - exists (Redirect "/login"), w, p.
    unfold handle, requireAuth. rewrite Ha. now repeat split.
Qed.

Lemma edit_same_title_keeps_slug_witness :
  exists (resp : Response) (w' : World) (p' : Blog.t),
    handle sample_config (quiet_env 1730000120000 3) 0
      (PostAdminEdit "hello-world" (Some "Hello World") (Some "edited") None None)
      hello_world
    = Some (resp, w') /\
    map Blog.id (blogs w') = [1; 2] /\
    slugs (blogs w') = ["hello-world"; "hello-world-1"] /\
    In p' (blogs w') /\ Blog.id p' = 1 /\ Blog.slug p' = "hello-world".
Proof.
  apply (@edit_same_title_keeps_slug sample_config
           (quiet_env 1730000120000 3) 0 hello_world hello1
           (Some "edited") None None).
  - now left.
  - reflexivity.
Defined.

(** C4.  On a table whose slugs are pairwise distinct, an edit of a stored
    post [p] whose recomputed base slug is held by another post [q], with
    the upload and the update succeeding: [p]'s row gets the slug
    [base-<Date.now()>], the timestamp in decimal, and that slug differs
    from the slug of [q], which stays in the table. *)
Theorem edit_conflict_appends_timestamp (cfg : Config) (env : Env)
    (fuel : nat) (w : World) (p q : Blog.t) (t : string)
    (d rf : option string) (f : option File) :
  isAuthenticated w = true ->
  NoDup (slugs (blogs w)) ->
  In p (blogs w) ->
  In q (blogs w) ->
  Blog.slug q = generateSlug t ->
  Blog.slug q <> Blog.slug p ->
  uploadError env = false ->
  updateError env = false ->
  exists (w' : World) (p' : Blog.t),
    handle cfg env fuel (PostAdminEdit (Blog.slug p) (Some t) d rf f) w
    = Some (Redirect "/admin", w') /\
    In p' (blogs w') /\
    Blog.id p' = Blog.id p /\
    Blog.title p' = t /\
    Blog.slug p' = generateSlug t ++ "-" ++ Str.of_N (now_slug env) /\
    Blog.slug p' <> Blog.slug q /\
    In q (blogs w').
Proof.
  intros Ha Hnd Hp Hq Hbase Hdiff Hu Hw.
  rewrite (handle_edit_authenticated cfg env fuel _ _ d rf f w Ha).
  destruct (@edit_success cfg env (Blog.slug p) t d rf f w p
              (select_unique _ _ Hnd Hp) Hu Hw) as [w' [fu [Hrun Hb]]].
  unfold edit_slug in Hb.
  rewrite <- Hbase, (@select_conflict_other _ _ _ Hnd Hq Hdiff) in Hb.
  exists w',
    (Backend.patch t d fu (Blog.slug q ++ "-" ++ Str.of_N (now_slug env)) p).
  rewrite Hrun, Hb, <- Hbase.
  split; [reflexivity|]. split; [|repeat split].
  - pose proof (update_rows_in (Blog.slug p)
                  (Backend.patch t d fu
                     (Blog.slug q ++ "-" ++ Str.of_N (now_slug env))) _ _ Hp)
      as Hin.
    now rewrite (proj2 (slug_is_true (Blog.slug p) p) eq_refl) in Hin.
  - apply suffixed_neq_base.
  - pose proof (update_rows_in (Blog.slug p)
                  (Backend.patch t d fu
                     (Blog.slug q ++ "-" ++ Str.of_N (now_slug env))) _ _ Hq)
      as Hin.
    now rewrite (proj2 (slug_is_false (Blog.slug p) q) Hdiff) in Hin.
Qed.

Lemma edit_conflict_appends_timestamp_witness :
  exists (w' : World) (p' : Blog.t),
    handle sample_config (quiet_env 1730000120000 3) 0
      (PostAdminEdit "hello-world-1" (Some "Hello, World!") None None None)
      hello_world
    = Some (Redirect "/admin", w') /\
    In p' (blogs w') /\
    Blog.id p' = 2 /\
    Blog.title p' = "Hello, World!" /\
    Blog.slug p' = "hello-world-1730000120000" /\
    Blog.slug p' <> "hello-world" /\
    In hello1 (blogs w').
Proof.
  apply (@edit_conflict_appends_timestamp sample_config
           (quiet_env 1730000120000 3) 0 hello_world hello2 hello1
           "Hello, World!" None None None).
  - reflexivity.
  - repeat constructor; cbn; intuition discriminate.
  - right. now left.
  - now left.
  - reflexivity.
  - discriminate.
  - reflexivity.
  - reflexivity.
Defined.

(** C9.  On a table whose slugs are pairwise distinct, an edit of a stored
    post [p] whose [file_url] is set, with the remove-file flag on, no new
    file and the update succeeding: exactly one call reaches the bucket,
    the removal of the object [p] referenced, and [p]'s row is stored with
    [file_url] cleared. *)
Theorem edit_remove_file_once (cfg : Config) (env : Env) (fuel : nat)
    (w : World) (p : Blog.t) (u t : string) (d : option string) :
  isAuthenticated w = true ->
  NoDup (slugs (blogs w)) ->
  In p (blogs w) ->
  Blog.file_url p = Some u ->
  u <> "" ->
  updateError env = false ->
  exists (w' : World) (p' : Blog.t),
    handle cfg env fuel
      (PostAdminEdit (Blog.slug p) (Some t) d (Some "on") None) w
    = Some (Redirect "/admin", w') /\
    storage_log w' = (storage_log w ++ [CallRemove [Str.last_segment u]])%list /\
    objects w' = Backend.remove_objects [Str.last_segment u] (objects w) /\
    In p' (blogs w') /\
    Blog.id p' = Blog.id p /\
    Blog.file_url p' = None /\
    blogs w' = Backend.update_rows (Blog.slug p)
                 (Backend.patch t d None
                    (edit_slug env (blogs w) t (Blog.slug p)))
                 (blogs w).
Proof.
  intros Ha Hnd Hp Hu Hne Hw.
  rewrite (handle_edit_authenticated cfg env fuel _ _ d _ None w Ha).
  unfold edit_slug. run_handler.
  rewrite (select_unique _ _ Hnd Hp), Hu, (truthy_nonempty Hne), Hw.
  cbn [strict_eq String.eqb Ascii.eqb Bool.eqb andb
       fst snd blogs objects storage_log isAuthenticated].
  eexists. eexists. split; [reflexivity|].
  cbn [fst snd blogs objects storage_log isAuthenticated].
  split; [reflexivity|]. split; [reflexivity|].
  split; [|split; [|split]].
  - pose proof (update_rows_in (Blog.slug p)
                  (Backend.patch t d None
                     (edit_slug env (blogs w) t (Blog.slug p))) _ _ Hp) as Hin.
    rewrite (proj2 (slug_is_true (Blog.slug p) p) eq_refl) in Hin.
    exact Hin.
  - reflexivity.
  - reflexivity.
  - reflexivity.
Qed.

Lemma edit_remove_file_once_witness :
  exists (w' : World) (p' : Blog.t),
    handle sample_config (quiet_env 1730000120000 3) 0
      (PostAdminEdit "hello-world" (Some "Hello World") None (Some "on") None)
      hello_world
    = Some (Redirect "/admin", w') /\
    storage_log w' = [CallRemove ["1730000000000.pdf"]] /\
    objects w' = [] /\
    In p' (blogs w') /\
    Blog.id p' = 1 /\
    Blog.file_url p' = None /\
    slugs (blogs w') = ["hello-world"; "hello-world-1"].
Proof.
  destruct (@edit_remove_file_once sample_config (quiet_env 1730000120000 3) 0
              hello_world hello1
              "https://files.example/blog-files/1730000000000.pdf"
              "Hello World" None)
    as [w' [p' [Hrun [Hlog [Hobj [Hin [Hid [Hfile Hrows]]]]]]]].
  - reflexivity.
  - repeat constructor; cbn; intuition discriminate.
  - now left.
  - reflexivity.
  - discriminate.
  - reflexivity.
  - exists w', p'.
    repeat split;
      [exact Hrun | exact Hlog | exact Hobj | exact Hin | exact Hid
      | exact Hfile | rewrite Hrows; reflexivity].
Defined.

(** * Further properties of the code *)

(** ** The shape of a generated slug *)

Ltac by_cases_on_char c :=
  destruct c as [[] [] [] [] [] [] [] []]; vm_compute; try reflexivity;
  try discriminate; auto.

Lemma lower_char_kept (c : ascii) :
  word_keep (Chars.lower_char c) = true ->
  Chars.is_space (Chars.lower_char c) || slug_char (Chars.lower_char c) = true.
Proof. by_cases_on_char c. Qed.



Lemma slug_char_lower (c : ascii) :
  slug_char c = true -> Chars.lower_char c = c.
Proof. by_cases_on_char c. Qed.

Lemma slug_char_kept (c : ascii) : slug_char c = true -> word_keep c = true.
Proof. by_cases_on_char c. Qed.

Lemma slug_char_no_space (c : ascii) :
  slug_char c = true -> Chars.is_space c = false.
Proof. by_cases_on_char c. Qed.

Lemma is_hyphen_char (c : ascii) : Chars.is_hyphen c = true -> c = "-"%char.
Proof. by_cases_on_char c. Qed.

Section RunFacts.

Variable p : ascii -> bool.

Lemma replace_runs_forallb (P Q : ascii -> bool) (b : bool) (s : string) :
  (forall c, p c = false -> Q c = true -> P c = true) ->
  P "-"%char = true ->
  Str.forallb Q s = true ->
  Str.forallb P (Str.replace_runs p b s) = true.
Proof.
  intros Hc Hh. revert b. induction s as [|c r IH]; intros b H; [reflexivity|].
  cbn in H. apply andb_true_iff in H. destruct H as [Hq Hr].
  cbn. destruct (p c) eqn:Hp.
  - destruct b; cbn; [|rewrite Hh; cbn]; now apply IH.
  - cbn. rewrite (Hc c Hp Hq). cbn. now apply IH.
Qed.

(** Nothing is replaced in a string without a character of the class. *)
Lemma replace_runs_none (b : bool) (s : string) :
  Str.forallb (fun c => negb (p c)) s = true -> Str.replace_runs p b s = s.
Proof.
  revert b. induction s as [|c r IH]; intros b H; [reflexivity|].
  cbn in H. apply andb_true_iff in H. destruct H as [Hc Hr].
  apply negb_true_iff in Hc. cbn. rewrite Hc. now rewrite IH.
Qed.

Hypothesis hyphen_in_class : p "-"%char = true.

(** After the replacement no two characters of the class are neighbours,
    and a run that had begun before the string leaves none at its start. *)
Lemma replace_runs_no_adjacent (b : bool) (s : string) :
  no_adjacent p (Str.replace_runs p b s) = true /\
  (b = true -> Str.starts_with p (Str.replace_runs p b s) = false).
Proof.
  revert b. induction s as [|c r IH]; intros b; [now split|].
  cbn [Str.replace_runs]. destruct (p c) eqn:Hp.
  - destruct b.
    + apply IH.
    + destruct (IH true) as [Hn Hs]. split; [|discriminate].
      cbn. now rewrite hyphen_in_class, (Hs eq_refl), Hn.
  - destruct (IH false) as [Hn _]. split.
    + cbn. now rewrite Hp, Hn.
    + intros _. exact Hp.
Qed.

Hypothesis class_is_hyphen : forall c, p c = true -> c = "-"%char.

(** A string without neighbouring hyphens is left as it is. *)
Lemma replace_runs_fixed (b : bool) (s : string) :
  no_adjacent p s = true ->
  (b = true -> Str.starts_with p s = false) ->
  Str.replace_runs p b s = s.
Proof.
  revert b. induction s as [|c r IH]; intros b Hn Hs; [reflexivity|].
  cbn in Hn. apply andb_true_iff in Hn. destruct Hn as [Hc Hr].
  cbn [Str.replace_runs]. destruct (p c) eqn:Hp.
  - destruct b; [specialize (Hs eq_refl); cbn in Hs; congruence|].
    rewrite (class_is_hyphen Hp). f_equal. apply IH; [exact Hr|].
    intros _. cbn in Hc. now apply negb_true_iff in Hc.
  - f_equal. apply IH; [exact Hr | discriminate].
Qed.


End RunFacts.

Lemma remove_unless_forallb (keep Q : ascii -> bool) (s : string) :
  (forall c, keep c = true -> Q c = true) ->
  Str.forallb Q (Str.remove_unless keep s) = true.
Proof.
  intros H. induction s as [|c r IH]; [reflexivity|].
  cbn. destruct (keep c) eqn:E; [|exact IH].
  cbn. now rewrite (H c E), IH.
Qed.

Lemma remove_unless_all (keep : ascii -> bool) (s : string) :
  Str.forallb keep s = true -> Str.remove_unless keep s = s.
Proof.
  induction s as [|c r IH]; [reflexivity|]. cbn. intros H.
  apply andb_true_iff in H. destruct H as [Hc Hr]. now rewrite Hc, IH.
Qed.


Lemma remove_unless_map (keep : ascii -> bool) (f : ascii -> ascii)
    (s : string) :
  Str.remove_unless keep (Str.map f s)
  = Str.map f (Str.remove_unless (fun c => keep (f c)) s).
Proof.
  induction s as [|c r IH]; [reflexivity|].
  cbn. rewrite IH. now destruct (keep (f c)).
Qed.

Lemma forallb_map (P : ascii -> bool) (f : ascii -> ascii) (s : string) :
  Str.forallb P (Str.map f s) = Str.forallb (fun c => P (f c)) s.
Proof. induction s as [|c r IH]; [reflexivity|]. cbn. now rewrite IH. Qed.

Lemma forallb_impl (P Q : ascii -> bool) (s : string) :
  (forall c, P c = true -> Q c = true) ->
  Str.forallb P s = true -> Str.forallb Q s = true.
Proof.
  intros H. induction s as [|c r IH]; [reflexivity|]. cbn. intros Hs.
  apply andb_true_iff in Hs. destruct Hs as [Hc Hr].
  now rewrite (H c Hc), IH.
Qed.

Lemma map_fixed (f : ascii -> ascii) (P : ascii -> bool) (s : string) :
  (forall c, P c = true -> f c = c) ->
  Str.forallb P s = true -> Str.map f s = s.
Proof.
  intros H. induction s as [|c r IH]; [reflexivity|]. cbn. intros Hs.
  apply andb_true_iff in Hs. destruct Hs as [Hc Hr].
  now rewrite (H c Hc), IH.
Qed.

Lemma slug_core_charset (t : string) :
  Str.forallb slug_char (slug_core t) = true.
Proof.
  unfold slug_core.
  apply replace_runs_forallb with (Q := slug_char); [auto | reflexivity|].
  apply replace_runs_forallb
    with (Q := fun c => Chars.is_space c || slug_char c).
  - intros c Hs H. now rewrite Hs in H.
  - reflexivity.
  - unfold Str.toLowerCase. rewrite remove_unless_map, forallb_map.
    apply remove_unless_forallb. intros c. apply lower_char_kept.
Qed.

Lemma slug_core_no_double_hyphen (t : string) :
  no_adjacent Chars.is_hyphen (slug_core t) = true.
Proof. unfold slug_core. now apply replace_runs_no_adjacent. Qed.

(** A string of slug characters without a double hyphen is its own slug. *)
Lemma slug_core_fixed (s : string) :
  Str.forallb slug_char s = true ->
  no_adjacent Chars.is_hyphen s = true ->
  slug_core s = s.
Proof.
  intros Hc Hn. unfold slug_core, Str.toLowerCase.
  rewrite (@map_fixed _ slug_char s slug_char_lower Hc).
  rewrite (@remove_unless_all word_keep s
             (@forallb_impl slug_char word_keep s slug_char_kept Hc)).
  rewrite (@replace_runs_none Chars.is_space false s).
  - apply replace_runs_fixed;
      [apply is_hyphen_char | exact Hn | discriminate].
  - apply (@forallb_impl slug_char); [|exact Hc].
    intros c H. now rewrite (slug_char_no_space c H).
Qed.

(** X1.  A generated slug consists of lower-case letters, digits,
    underscores and hyphens only: no upper-case letter, no whitespace and no
    other character of the title survives. *)
Theorem generateSlug_charset (t : string) :
  Str.forallb slug_char (generateSlug t) = true.
Proof. rewrite generateSlug_core. apply slug_core_charset. Qed.

(** X2.  A generated slug never has two hyphens in a row. *)
Theorem generateSlug_no_double_hyphen (t : string) :
  no_adjacent Chars.is_hyphen (generateSlug t) = true.
Proof. rewrite generateSlug_core. apply slug_core_no_double_hyphen. Qed.

(** X3.  Generating a slug from a slug changes nothing. *)
Theorem generateSlug_idempotent (t : string) :
  generateSlug (generateSlug t) = generateSlug t.
Proof.
  rewrite !generateSlug_core.
  apply slug_core_fixed;
    [apply slug_core_charset | apply slug_core_no_double_hyphen].
Qed.



Lemma space_lower (c : ascii) :
  Chars.is_space c = true ->
  Chars.lower_char c = c /\ word_keep c = true /\ Chars.is_hyphen c = false.
Proof. by_cases_on_char c. Qed.

Lemma replace_runs_all (p : ascii -> bool) (s : string) :
  Str.forallb p s = true -> Str.replace_runs p true s = "".
Proof.
  induction s as [|c r IH]; [reflexivity|]. cbn. intros H.
  apply andb_true_iff in H. destruct H as [Hc Hr]. rewrite Hc. now apply IH.
Qed.

(** X6.  A non-empty title made of whitespace only gives the slug [-]: the
    whitespace becomes one hyphen and the closing [trim] finds nothing to
    strip. *)
Theorem generateSlug_blank_title (t : string) :
  t <> "" ->
  Str.forallb Chars.is_space t = true ->
  generateSlug t = "-".
Proof.
  intros Hne Hs. rewrite generateSlug_core. unfold slug_core, Str.toLowerCase.
  rewrite (@map_fixed _ Chars.is_space t
             (fun c H => proj1 (space_lower c H)) Hs).
  rewrite (@remove_unless_all word_keep t
             (@forallb_impl Chars.is_space word_keep t
                (fun c H => proj1 (proj2 (space_lower c H))) Hs)).
  destruct t as [|c r]; [congruence|].
  cbn in Hs. apply andb_true_iff in Hs. destruct Hs as [Hc Hr].
  cbn [Str.replace_runs]. rewrite Hc, (replace_runs_all _ _ Hr). reflexivity.
Qed.

Lemma generateSlug_blank_title_witness : generateSlug "   " = "-".
Proof.
  apply generateSlug_blank_title; [discriminate | reflexivity].
Defined.

(** ** The session flag *)

Ltac crunch :=
  run_handler;
  repeat match goal with
    | |- context [if ?b then _ else _] => destruct b eqn:?
    | |- context [match ?o with Some _ => _ | None => _ end] =>
        destruct o eqn:?
    end;
  cbn [fst snd blogs objects storage_log isAuthenticated];
  try reflexivity.

Lemma edit_keeps_session (cfg : Config) (env : Env) (s : string)
    (t d rf : option string) (f : option File) (w : World) :
  isAuthenticated (snd (postAdminEdit cfg env s t d rf f w)) = isAuthenticated w.
Proof. crunch. Qed.

Lemma delete_keeps_session (env : Env) (s : string) (w : World) :
  isAuthenticated (snd (postAdminDelete env s w)) = isAuthenticated w.
Proof. crunch. Qed.

Lemma create_keeps_session (cfg : Config) (env : Env) (fuel : nat)
    (t d : option string) (f : option File) (w : World)
    (res : Response * World) :
  postAdminBlog cfg env fuel t d f w = Some res ->
  isAuthenticated (snd res) = isAuthenticated w.
Proof.
  unfold postAdminBlog. destruct t as [t|]; [|now intros [= <-]].
  destruct (slugLoop fuel (blogs w) (generateSlug t) (generateSlug t) 1);
    [|discriminate].
  intros [= <-]. crunch.
Qed.

(** X7.  The session flag changes in two ways only: a login whose
    credentials match sets it, and a logout clears it.  No other request,
    whatever it does to the table or the bucket, and no failed login
    touches it. *)
Theorem session_flag_changes (cfg : Config) (env : Env) (fuel : nat)
    (r : Request) (w w' : World) (resp : Response) :
  handle cfg env fuel r w = Some (resp, w') ->
  isAuthenticated w' <> isAuthenticated w ->
  (exists u p, r = PostLogin u p /\
     strict_eq u (ADMIN_USERNAME cfg) && strict_eq p (ADMIN_PASSWORD cfg) = true /\
     isAuthenticated w' = true) \/
  (r = GetLogout /\ isAuthenticated w' = false).
Proof.
  intros H Hch.
  destruct r as [|s| |u p| |s|s t d rf f|s|t d f|]; unfold handle in H.
  - injection H as _ <-. congruence.
  - unfold getBlog in H.
    destruct (Backend.select_by_slug (blogs w) s); injection H as _ <-;
      congruence.
  - injection H as _ <-. congruence.
  - unfold postLogin in H.
    destruct (strict_eq u (ADMIN_USERNAME cfg)
              && strict_eq p (ADMIN_PASSWORD cfg)) eqn:E;
      injection H as _ <-.
    + left. exists u, p. now repeat split.
    + congruence.
  - unfold requireAuth in H. destruct (isAuthenticated w) eqn:Ha;
      injection H as _ <-; congruence.
  - unfold requireAuth, getAdminEdit in H.
    destruct (isAuthenticated w) eqn:Ha.
    + destruct (Backend.select_by_slug (blogs w) s); injection H as _ <-;
        congruence.
    + injection H as _ <-. congruence.
  - unfold requireAuth in H. destruct (isAuthenticated w) eqn:Ha.
    + injection H as H. apply (f_equal snd) in H. cbn in H. subst w'.
      rewrite edit_keeps_session in Hch. congruence.
    + injection H as _ <-. congruence.
  - unfold requireAuth in H. destruct (isAuthenticated w) eqn:Ha.
    + injection H as H. apply (f_equal snd) in H. cbn in H. subst w'.
      rewrite delete_keeps_session in Hch. congruence.
    + injection H as _ <-. congruence.
  - unfold requireAuth in H. destruct (isAuthenticated w) eqn:Ha.
    + apply create_keeps_session in H. cbn in H. congruence.
    + injection H as _ <-. congruence.
  - injection H as _ <-. right. now split.
Qed.

Lemma session_flag_changes_witness :
  (exists u p,
      PostLogin (Some "admin") (Some "secret") = PostLogin u p /\
      strict_eq u (ADMIN_USERNAME sample_config)
      && strict_eq p (ADMIN_PASSWORD sample_config) = true /\
      isAuthenticated hello_world = true) \/
  (PostLogin (Some "admin") (Some "secret") = GetLogout /\
   isAuthenticated hello_world = false).
Proof.
  apply (@session_flag_changes sample_config (quiet_env 0 0) 0
           (PostLogin (Some "admin") (Some "secret"))
           (set_authenticated false hello_world) hello_world
           (Redirect "/admin")).
  - reflexivity.
  - discriminate.
Defined.

(** X8.  A login with the configured credentials redirects to the admin
    page and touches nothing but the session; the admin list that was
    refused before is then served. *)
Theorem login_unlocks_admin (cfg : Config) (env : Env) (fuel : nat)
    (w : World) (u p : option string) :
  strict_eq u (ADMIN_USERNAME cfg) && strict_eq p (ADMIN_PASSWORD cfg) = true ->
  exists w1 : World,
    handle cfg env fuel (PostLogin u p) w = Some (Redirect "/admin", w1) /\
    blogs w1 = blogs w /\ objects w1 = objects w /\
    storage_log w1 = storage_log w /\
    handle cfg env fuel GetAdmin w1
    = Some (Render "admin" (Backend.select_ordered (blogs w)), w1).
Proof.
  intros H. exists (set_authenticated true w).
  unfold handle, postLogin. rewrite H. now repeat split.
Qed.

Lemma login_unlocks_admin_witness :
  exists w1 : World,
    handle sample_config (quiet_env 0 0) 0
      (PostLogin (Some "admin") (Some "secret"))
      (set_authenticated false hello_world)
    = Some (Redirect "/admin", w1) /\
    blogs w1 = [hello1; hello2] /\ objects w1 = [hello_pdf] /\
    storage_log w1 = [] /\
    handle sample_config (quiet_env 0 0) 0 GetAdmin w1
    = Some (Render "admin" [hello2; hello1], w1).
Proof.
  apply (@login_unlocks_admin sample_config (quiet_env 0 0) 0
           (set_authenticated false hello_world)
           (Some "admin") (Some "secret")).
  reflexivity.
Defined.

(** X9.  When neither [ADMIN_USERNAME] nor [ADMIN_PASSWORD] is set, the
    submissions that log in are exactly those that carry neither field:
    [undefined === undefined] holds, and no submitted string equals
    [undefined]. *)
Theorem login_with_unset_credentials (cfg : Config) (env : Env) (fuel : nat)
    (w : World) (u p : option string) :
  ADMIN_USERNAME cfg = None ->
  ADMIN_PASSWORD cfg = None ->
  handle cfg env fuel (PostLogin u p) w
  = match u, p with
    | None, None => Some (Redirect "/admin", set_authenticated true w)
    | _, _ => Some (Redirect "/login", w)
    end.
Proof.
  intros Hu Hp. unfold handle, postLogin. rewrite Hu, Hp.
  now destruct u, p.
Qed.

Lemma login_with_unset_credentials_witness :
  let cfg := {| ADMIN_USERNAME := None; ADMIN_PASSWORD := None;
                extname := extname sample_config;
                getPublicUrl := getPublicUrl sample_config |} in
  handle cfg (quiet_env 0 0) 0 (PostLogin None None)
    (set_authenticated false hello_world)
  = Some (Redirect "/admin", hello_world).
Proof.
  apply (@login_with_unset_credentials
           {| ADMIN_USERNAME := None; ADMIN_PASSWORD := None;
              extname := extname sample_config;
              getPublicUrl := getPublicUrl sample_config |}
           (quiet_env 0 0) 0 (set_authenticated false hello_world) None None);
    reflexivity.
Defined.

(** X10.  A logout redirects to the list, leaves the table and the bucket
    as they are, and from then on every admin-scoped request is redirected
    to the login form without effect. *)
Theorem logout_locks_admin (cfg : Config) (env : Env) (fuel : nat) (w : World) :
  exists w1 : World,
    handle cfg env fuel GetLogout w = Some (Redirect "/", w1) /\
    blogs w1 = blogs w /\ objects w1 = objects w /\
    storage_log w1 = storage_log w /\
    forall (env' : Env) (fuel' : nat) (r : Request),
      admin_scoped r = true ->
      handle cfg env' fuel' r w1 = Some (Redirect "/login", w1).
Proof.
  exists (set_authenticated false w). repeat split.
  intros env' fuel' r Hr.
  destruct r; try discriminate Hr; reflexivity.
Qed.

Lemma logout_locks_admin_witness :
  exists w1 : World,
    handle sample_config (quiet_env 9 3) 0 GetLogout hello_world
    = Some (Redirect "/", w1) /\
    blogs w1 = blogs hello_world /\ objects w1 = objects hello_world /\
    storage_log w1 = storage_log hello_world /\
    forall (env' : Env) (fuel' : nat) (r : Request),
      admin_scoped r = true ->
      handle sample_config env' fuel' r w1 = Some (Redirect "/login", w1).
Proof. apply logout_locks_admin. Defined.

(** ** Requests that read *)

(** X11.  The list, a post page, the login form, the admin list and the edit
    form never change the world, whether or not the session is
    authenticated and whether or not the post is found. *)
Theorem read_only_requests_change_nothing (cfg : Config) (env : Env)
    (fuel : nat) (r : Request) (w w' : World) (resp : Response) :
  read_only r = true ->
  handle cfg env fuel r w = Some (resp, w') ->
  w' = w.
Proof.
  intros Hr H.
  destruct r as [|s| |u p| |s|s t d rf f|s|t d f|]; try discriminate Hr;
    unfold handle, requireAuth, getHome, getBlog, getLogin, getAdmin,
      getAdminEdit in H.
  - now injection H.
  - destruct (Backend.select_by_slug (blogs w) s); now injection H.
  - now injection H.
  - destruct (isAuthenticated w); now injection H.
  - destruct (isAuthenticated w);
      [destruct (Backend.select_by_slug (blogs w) s)|]; now injection H.
Qed.

Lemma read_only_requests_change_nothing_witness :
  snd (Render "edit" [hello1], hello_world) = hello_world.
Proof.
  apply (@read_only_requests_change_nothing sample_config (quiet_env 0 0) 0
           (GetAdminEdit "hello-world") hello_world
           (snd (Render "edit" [hello1], hello_world))
           (Render "edit" [hello1])); reflexivity.
Defined.








(** ** Creating *)


Lemma NoDup_snoc (A : Type) (l : list A) (x : A) :
  NoDup l -> ~ In x l -> NoDup (l ++ [x]).
Proof.
  induction l as [|y l IH]; intros Hnd Hx.
  - cbn. constructor; [intros [] | constructor].
  - inversion Hnd as [|? ? Hy Hl]; subst. cbn. constructor.
    + rewrite in_app_iff. intros [H|[H|[]]]; [now apply Hy|].
      apply Hx. now left.
    + apply IH; [exact Hl|]. intros H. apply Hx. now right.
Qed.







(** X16.  A successful create with a file uploads exactly one object, named
    by the clock reading followed by the extension of the original name,
    with the file's bytes and MIME type and [cacheControl] 3600, and stores
    the object's public URL in the new row; without a file the bucket is not
    called and the row's [file_url] is null. *)
Theorem create_uploads_once (cfg : Config) (env : Env) (fuel : nat)
    (w w' : World) (t : string) (d : option string) (f : option File) :
  isAuthenticated w = true ->
  handle cfg env fuel (PostAdminBlog (Some t) d f) w = Some (Redirect "/", w') ->
  exists r : Blog.t,
    blogs w' = (blogs w ++ [r])%list /\
    match f with
    | Some file =>
        let filename :=
          Str.of_N (now_file env) ++ extname cfg (originalname file) in
        storage_log w' = (storage_log w ++ [CallUpload filename])%list /\
        objects w'
        = (objects w ++
           [{| name := filename; body := buffer file;
               contentType := mimetype file; cacheControl := "3600" |}])%list /\
        Blog.file_url r = Some (getPublicUrl cfg filename)
    | None =>
        storage_log w' = storage_log w /\ objects w' = objects w /\
        Blog.file_url r = None
    end.
Proof.
  intros Ha. unfold handle, requireAuth, postAdminBlog. rewrite Ha.
  destruct (slugLoop fuel (blogs w) (generateSlug t) (generateSlug t) 1)
    as [finalSlug|]; [|discriminate].
  run_handler. destruct f as [f|];
    destruct (uploadError env), (insertError env);
    cbn [fst snd blogs objects storage_log isAuthenticated];
    intros H; try discriminate H; injection H as <-;
    eexists; cbn; repeat split; try reflexivity.
Qed.

Lemma create_uploads_once_witness :
  exists r : Blog.t,
    [hello1] = ([] ++ [r])%list /\
    Blog.file_url r
    = Some "https://files.example/blog-files/1730000000000.pdf".
Proof.
  destruct (@create_uploads_once sample_config (quiet_env 1730000000000 1) 1
              (admin_world [] [])
              {| isAuthenticated := true;
                 blogs := [hello1];
                 objects := [hello_pdf];
                 storage_log := [CallUpload "1730000000000.pdf"] |}
              "Hello World" (Some "first")
              (Some {| originalname := "notes.pdf"; buffer := "%PDF";
                       mimetype := "application/pdf" |}))
    as [r [Hb [_ [_ Hf]]]].
  - reflexivity.
  - reflexivity.
  - exists r. split; [exact Hb | exact Hf].
Defined.

(** X17.  When the upload succeeds and the insert fails, the create answers
    with status 500 and the table is unchanged, but the uploaded object
    stays in the bucket: nothing removes it. *)
Theorem create_insert_failure_orphans_upload (cfg : Config) (env : Env)
    (fuel : nat) (w w' : World) (resp : Response) (t : string)
    (d : option string) (file : File) :
  isAuthenticated w = true ->
  uploadError env = false ->
  insertError env = true ->
  handle cfg env fuel (PostAdminBlog (Some t) d (Some file)) w
  = Some (resp, w') ->
  resp = Send 500 "Error creating blog post" /\
  blogs w' = blogs w /\
  objects w'
  = (objects w ++
     [{| name := Str.of_N (now_file env) ++ extname cfg (originalname file);
         body := buffer file; contentType := mimetype file;
         cacheControl := "3600" |}])%list.
Proof.
  intros Ha Hu Hi. unfold handle, requireAuth, postAdminBlog. rewrite Ha.
  destruct (slugLoop fuel (blogs w) (generateSlug t) (generateSlug t) 1)
    as [finalSlug|]; [|discriminate].
  run_handler. rewrite Hu, Hi.
  cbn [fst snd blogs objects storage_log isAuthenticated].
  intros H. injection H as <- <-. now repeat split.
Qed.

Lemma create_insert_failure_orphans_upload_witness :
  let env := {| now_slug := 5; now_file := 5; uploadError := false;
                insertError := true; updateError := false;
                deleteError := false; insert_id := 1;
                insert_created_at := 5 |} in
  let file := {| originalname := "notes.pdf"; buffer := "%PDF";
                 mimetype := "application/pdf" |} in
  exists w' : World,
    handle sample_config env 1
      (PostAdminBlog (Some "Hello World") None (Some file)) (admin_world [] [])
    = Some (Send 500 "Error creating blog post", w') /\
    blogs w' = [] /\
    map name (objects w') = ["5.pdf"].
Proof.
  intros env file.
  destruct (handle sample_config env 1
              (PostAdminBlog (Some "Hello World") None (Some file))
              (admin_world [] [])) as [[resp w']|] eqn:E;
    [|discriminate E].
  destruct (@create_insert_failure_orphans_upload sample_config env 1
              (admin_world [] []) w' resp "Hello World" None file
              eq_refl eq_refl eq_refl E) as [-> [Hb Ho]].
  exists w'. split; [reflexivity|]. split; [exact Hb|].
  now rewrite Ho.
Defined.

(** X18.  When the upload fails, the create answers with status 500 without
    attempting the insert: the table and the objects of the bucket are
    unchanged. *)
Theorem create_upload_failure_writes_nothing (cfg : Config) (env : Env)
    (fuel : nat) (w w' : World) (resp : Response) (t : string)
    (d : option string) (file : File) :
  isAuthenticated w = true ->
  uploadError env = true ->
  handle cfg env fuel (PostAdminBlog (Some t) d (Some file)) w
  = Some (resp, w') ->
  resp = Send 500 "Error creating blog post" /\
  blogs w' = blogs w /\ objects w' = objects w.
Proof.
  intros Ha Hu. unfold handle, requireAuth, postAdminBlog. rewrite Ha.
  destruct (slugLoop fuel (blogs w) (generateSlug t) (generateSlug t) 1)
    as [finalSlug|]; [|discriminate].
  run_handler. rewrite Hu.
  cbn [fst snd blogs objects storage_log isAuthenticated].
  intros H. injection H as <- <-. now repeat split.
Qed.

Lemma create_upload_failure_writes_nothing_witness :
  let env := {| now_slug := 5; now_file := 5; uploadError := true;
                insertError := false; updateError := false;
                deleteError := false; insert_id := 3;
                insert_created_at := 5 |} in
  let file := {| originalname := "notes.pdf"; buffer := "%PDF";
                 mimetype := "application/pdf" |} in
  exists w' : World,
    handle sample_config env 3
      (PostAdminBlog (Some "Hello World") None (Some file)) hello_world
    = Some (Send 500 "Error creating blog post", w') /\
    blogs w' = [hello1; hello2] /\ objects w' = [hello_pdf].
Proof.
  intros env file.
  destruct (handle sample_config env 3
              (PostAdminBlog (Some "Hello World") None (Some file))
              hello_world) as [[resp w']|] eqn:E;
    [|discriminate E].
  destruct (@create_upload_failure_writes_nothing sample_config env 3
              hello_world w' resp "Hello World" None file
              eq_refl eq_refl E) as [-> [Hb Ho]].
  exists w'. now repeat split.
Defined.

Lemma select_duplicated (rows : list Blog.t) (s : string) :
  (2 <= List.length (filter (Backend.slug_is s) rows))%nat ->
  Backend.select_by_slug rows s = None.
Proof.
  unfold Backend.select_by_slug, Backend.single.
  destruct (filter (Backend.slug_is s) rows) as [|x [|y l]]; cbn; intros H;
    [lia | lia | reflexivity].
Qed.

(** X19.  A slug held by two or more rows is invisible to every lookup by
    slug, because [.single()] gives no data: the post page redirects to the
    list, an edit answers 500 and changes nothing, a delete removes all the
    rows of that slug without removing any file, and a create whose title
    derives that slug takes it at its first probe, adding one more row. *)
Theorem duplicated_slug_is_invisible (cfg : Config) (env : Env) (fuel : nat)
    (w : World) (t : string) (d rf : option string) (f : option File) :
  isAuthenticated w = true ->
  (2 <= List.length (filter (Backend.slug_is (generateSlug t)) (blogs w)))%nat ->
  insertError env = false ->
  deleteError env = false ->
  handle cfg env fuel (GetBlog (generateSlug t)) w = Some (Redirect "/", w) /\
  handle cfg env fuel (PostAdminEdit (generateSlug t) (Some t) d rf f) w
  = Some (Send 500 "Error updating blog post", w) /\
  (exists w1 : World,
      handle cfg env fuel (PostAdminDelete (generateSlug t)) w
      = Some (Redirect "/admin", w1) /\
      blogs w1 = Backend.delete_rows (generateSlug t) (blogs w) /\
      objects w1 = objects w /\ storage_log w1 = storage_log w) /\
  (exists (w2 : World) (r : Blog.t),
      handle cfg env (S fuel) (PostAdminBlog (Some t) d None) w
      = Some (Redirect "/", w2) /\
      blogs w2 = (blogs w ++ [r])%list /\
      Blog.slug r = generateSlug t).
Proof.
  intros Ha Hdup Hi Hd. pose proof (select_duplicated _ _ Hdup) as Hsel.
  split; [|split; [|split]].
  - unfold handle, getBlog. now rewrite Hsel.
  - rewrite (handle_edit_authenticated cfg env fuel _ _ d rf f w Ha).
    run_handler. now rewrite Hsel.
  - unfold handle, requireAuth. rewrite Ha. run_handler.
    rewrite Hsel, Hd. cbn [fst snd blogs objects storage_log isAuthenticated].
    eexists. split; [reflexivity|]. now repeat split.
  - unfold handle, requireAuth, postAdminBlog. rewrite Ha.
    cbn [slugLoop]. rewrite Hsel. run_handler. rewrite Hi.
    cbn [fst snd blogs objects storage_log isAuthenticated].
    eexists. eexists. split; [reflexivity|]. now repeat split.
Qed.

Lemma duplicated_slug_is_invisible_witness :
  let w := admin_world [hello1; hello1] [hello_pdf] in
  handle sample_config (quiet_env 9 3) 0 (GetBlog "hello-world") w
  = Some (Redirect "/", w) /\
  handle sample_config (quiet_env 9 3) 0
    (PostAdminEdit "hello-world" (Some "Hello World") None None None) w
  = Some (Send 500 "Error updating blog post", w) /\
  (exists w1 : World,
      handle sample_config (quiet_env 9 3) 0 (PostAdminDelete "hello-world") w
      = Some (Redirect "/admin", w1) /\
      blogs w1 = [] /\ objects w1 = [hello_pdf] /\ storage_log w1 = []) /\
  (exists (w2 : World) (r : Blog.t),
      handle sample_config (quiet_env 9 3) 1
        (PostAdminBlog (Some "Hello World") None None) w
      = Some (Redirect "/", w2) /\
      blogs w2 = [hello1; hello1; r] /\
      Blog.slug r = "hello-world").
Proof.
  apply (@duplicated_slug_is_invisible sample_config (quiet_env 9 3) 0
           (admin_world [hello1; hello1] [hello_pdf]) "Hello World"
           None None None).
  - reflexivity.
  - cbn. lia.
  - reflexivity.
  - reflexivity.
Defined.

(** ** Editing: files *)

(** X20.  A successful edit that brings a new file, on a post that has one,
    removes the old object exactly once and then uploads the new one,
    whether or not the remove-file flag is set as well; the row is stored
    with the public URL of the new object. *)
Theorem edit_replaces_file_once (cfg : Config) (env : Env) (fuel : nat)
    (w : World) (p : Blog.t) (u t : string) (d rf : option string)
    (file : File) :
  isAuthenticated w = true ->
  NoDup (slugs (blogs w)) ->
  In p (blogs w) ->
  Blog.file_url p = Some u ->
  u <> "" ->
  uploadError env = false ->
  updateError env = false ->
  let filename := Str.of_N (now_file env) ++ extname cfg (originalname file) in
  exists (w' : World) (p' : Blog.t),
    handle cfg env fuel (PostAdminEdit (Blog.slug p) (Some t) d rf (Some file)) w
    = Some (Redirect "/admin", w') /\
    storage_log w'
    = (storage_log w ++
       [CallRemove [Str.last_segment u]; CallUpload filename])%list /\
    objects w'
    = (Backend.remove_objects [Str.last_segment u] (objects w) ++
       [{| name := filename; body := buffer file;
           contentType := mimetype file; cacheControl := "3600" |}])%list /\
    In p' (blogs w') /\
    Blog.id p' = Blog.id p /\
    Blog.file_url p' = Some (getPublicUrl cfg filename).
Proof.
  intros Ha Hnd Hp Hu Hne Hup Hw filename.
  rewrite (handle_edit_authenticated cfg env fuel _ _ d rf (Some file) w Ha).
  run_handler.
  rewrite (select_unique _ _ Hnd Hp), Hu, (truthy_nonempty Hne), Hup, Hw.
  destruct (strict_eq rf (Some "on"));
    cbn [andb fst snd blogs objects storage_log isAuthenticated];
    rewrite ?(truthy_nonempty Hne);
    cbn [truthy fst snd blogs objects storage_log isAuthenticated];
    eexists;
    exists (Backend.patch t d (Some (getPublicUrl cfg filename))
              (edit_slug env (blogs w) t (Blog.slug p)) p);
    (split; [reflexivity|]);
    cbn [fst snd blogs objects storage_log isAuthenticated];
    rewrite <- !app_assoc; cbn [app];
    (split; [reflexivity|]); (split; [reflexivity|]);
    (split; [|split; reflexivity]).
  - pose proof (update_rows_in (Blog.slug p)
                  (Backend.patch t d (Some (getPublicUrl cfg filename))
                     (edit_slug env (blogs w) t (Blog.slug p))) _ _ Hp) as Hin.
    rewrite (proj2 (slug_is_true (Blog.slug p) p) eq_refl) in Hin.
    exact Hin.
  - pose proof (update_rows_in (Blog.slug p)
                  (Backend.patch t d (Some (getPublicUrl cfg filename))
                     (edit_slug env (blogs w) t (Blog.slug p))) _ _ Hp) as Hin.
    rewrite (proj2 (slug_is_true (Blog.slug p) p) eq_refl) in Hin.
    exact Hin.
Qed.

Lemma edit_replaces_file_once_witness :
  exists (w' : World) (p' : Blog.t),
    handle sample_config (quiet_env 1730000120000 3) 0
      (PostAdminEdit "hello-world" (Some "Hello World") None (Some "on")
         (Some {| originalname := "slides.pdf"; buffer := "%PDF-2";
                  mimetype := "application/pdf" |}))
      hello_world
    = Some (Redirect "/admin", w') /\
    storage_log w'
    = [CallRemove ["1730000000000.pdf"]; CallUpload "1730000120000.pdf"] /\
    map name (objects w') = ["1730000120000.pdf"] /\
    In p' (blogs w') /\
    Blog.id p' = 1 /\
    Blog.file_url p'
    = Some "https://files.example/blog-files/1730000120000.pdf".
Proof.
  destruct (@edit_replaces_file_once sample_config
              (quiet_env 1730000120000 3) 0 hello_world hello1
              "https://files.example/blog-files/1730000000000.pdf"
              "Hello World" None (Some "on")
              {| originalname := "slides.pdf"; buffer := "%PDF-2";
                 mimetype := "application/pdf" |})
    as [w' [p' [Hrun [Hlog [Hobj [Hin [Hid Hfile]]]]]]].
  - reflexivity.
  - repeat constructor; cbn; intuition discriminate.
  - now left.
  - reflexivity.
  - discriminate.
  - reflexivity.
  - reflexivity.
  - exists w', p'.
    repeat split;
      [exact Hrun | exact Hlog | rewrite Hobj; reflexivity | exact Hin
      | exact Hid | exact Hfile].
Defined.

(** X21.  A successful edit without the remove-file flag and without a new
    file does not call the bucket: the objects stay, and the row keeps its
    [file_url] while its title is replaced and its description is replaced
    when one was submitted. *)
Theorem edit_without_file_keeps_attachment (cfg : Config) (env : Env)
    (fuel : nat) (w : World) (p : Blog.t) (t : string) (d rf : option string) :
  isAuthenticated w = true ->
  NoDup (slugs (blogs w)) ->
  In p (blogs w) ->
  strict_eq rf (Some "on") = false ->
  updateError env = false ->
  exists (w' : World) (p' : Blog.t),
    handle cfg env fuel (PostAdminEdit (Blog.slug p) (Some t) d rf None) w
    = Some (Redirect "/admin", w') /\
    objects w' = objects w /\
    storage_log w' = storage_log w /\
    In p' (blogs w') /\
    Blog.id p' = Blog.id p /\
    Blog.file_url p' = Blog.file_url p /\
    Blog.title p' = t /\
    Blog.description p'
    = match d with Some x => Some x | None => Blog.description p end.
Proof.
  intros Ha Hnd Hp Hrf Hw.
  rewrite (handle_edit_authenticated cfg env fuel _ _ d rf None w Ha).
  run_handler. rewrite (select_unique _ _ Hnd Hp), Hrf, Hw.
  cbn [andb fst snd blogs objects storage_log isAuthenticated].
  eexists.
  exists (Backend.patch t d (Blog.file_url p)
            (edit_slug env (blogs w) t (Blog.slug p)) p).
  split; [reflexivity|].
  cbn [fst snd blogs objects storage_log isAuthenticated].
  split; [reflexivity|]. split; [reflexivity|].
  split; [|repeat split].
  pose proof (update_rows_in (Blog.slug p)
                (Backend.patch t d (Blog.file_url p)
                   (edit_slug env (blogs w) t (Blog.slug p))) _ _ Hp) as Hin.
  rewrite (proj2 (slug_is_true (Blog.slug p) p) eq_refl) in Hin.
  exact Hin.
Qed.

Lemma edit_without_file_keeps_attachment_witness :
  exists (w' : World) (p' : Blog.t),
    handle sample_config (quiet_env 1730000120000 3) 0
      (PostAdminEdit "hello-world" (Some "Hello again") None None None)
      hello_world
    = Some (Redirect "/admin", w') /\
    objects w' = [hello_pdf] /\
    storage_log w' = [] /\
    In p' (blogs w') /\
    Blog.id p' = 1 /\
    Blog.file_url p'
    = Some "https://files.example/blog-files/1730000000000.pdf" /\
    Blog.title p' = "Hello again" /\
    Blog.description p' = Some "first".
Proof.
  apply (@edit_without_file_keeps_attachment sample_config
           (quiet_env 1730000120000 3) 0 hello_world hello1
           "Hello again" None None).
  - reflexivity.
  - repeat constructor; cbn; intuition discriminate.
  - now left.
  - reflexivity.
  - reflexivity.
Defined.

(** X22.  When the upload of the new file fails, the edit answers with
    status 500 and the table is unchanged, but the old object has already
    been removed: the row still carries a [file_url] whose object is no
    longer in the bucket. *)
Theorem edit_upload_failure_leaves_dangling_url (cfg : Config) (env : Env)
    (fuel : nat) (w : World) (p : Blog.t) (u t : string) (d : option string)
    (file : File) :
  isAuthenticated w = true ->
  NoDup (slugs (blogs w)) ->
  In p (blogs w) ->
  Blog.file_url p = Some u ->
  u <> "" ->
  uploadError env = true ->
  exists w' : World,
    handle cfg env fuel
      (PostAdminEdit (Blog.slug p) (Some t) d None (Some file)) w
    = Some (Send 500 "Error updating blog post", w') /\
    blogs w' = blogs w /\
    In p (blogs w') /\
    (forall o, In o (objects w') -> name o <> Str.last_segment u).
Proof.
  intros Ha Hnd Hp Hu Hne Hup.
  rewrite (handle_edit_authenticated cfg env fuel _ _ d None (Some file) w Ha).
  run_handler.
  rewrite (select_unique _ _ Hnd Hp), Hu, (truthy_nonempty Hne), Hup.
  cbn [strict_eq andb fst snd blogs objects storage_log isAuthenticated].
  rewrite ?(truthy_nonempty Hne).
  cbn [fst snd blogs objects storage_log isAuthenticated].
  eexists. split; [reflexivity|].
  cbn [fst snd blogs objects storage_log isAuthenticated].
  split; [reflexivity|]. split; [exact Hp|].
  intros o Ho. now apply remove_objects_in in Ho.
Qed.

Lemma edit_upload_failure_leaves_dangling_url_witness :
  let env := {| now_slug := 9; now_file := 9; uploadError := true;
                insertError := false; updateError := false;
                deleteError := false; insert_id := 3;
                insert_created_at := 9 |} in
  exists w' : World,
    handle sample_config env 0
      (PostAdminEdit "hello-world" (Some "Hello World") None None
         (Some {| originalname := "slides.pdf"; buffer := "%PDF-2";
                  mimetype := "application/pdf" |}))
      hello_world
    = Some (Send 500 "Error updating blog post", w') /\
    blogs w' = [hello1; hello2] /\
    In hello1 (blogs w') /\
    (forall o, In o (objects w') -> name o <> "1730000000000.pdf").
Proof.
  intros env.
  apply (@edit_upload_failure_leaves_dangling_url sample_config env 0
           hello_world hello1
           "https://files.example/blog-files/1730000000000.pdf"
           "Hello World" None
           {| originalname := "slides.pdf"; buffer := "%PDF-2";
              mimetype := "application/pdf" |}).
  - reflexivity.
  - repeat constructor; cbn; intuition discriminate.
  - now left.
  - reflexivity.
  - discriminate.
  - reflexivity.
Defined.

(** ** Editing: the table *)

(** X23.  An edit never adds, removes or reorders rows: the table after it is
    the table before it with each row mapped to a row of the same id and
    creation time, and a row whose slug is not the edited slug is mapped to
    itself. *)
Theorem edit_touches_only_the_edited_slug (cfg : Config) (env : Env)
    (fuel : nat) (s : string) (t d rf : option string) (f : option File)
    (w w' : World) (resp : Response) :
  handle cfg env fuel (PostAdminEdit s t d rf f) w = Some (resp, w') ->
  exists g : Blog.t -> Blog.t,
    blogs w' = map g (blogs w) /\
    forall r, Blog.id (g r) = Blog.id r /\
              Blog.created_at (g r) = Blog.created_at r /\
              (Blog.slug r <> s -> g r = r).
Proof.
  unfold handle, requireAuth. intros H.
  assert (Hid : exists g : Blog.t -> Blog.t,
             blogs w = map g (blogs w) /\
             forall r, Blog.id (g r) = Blog.id r /\
                       Blog.created_at (g r) = Blog.created_at r /\
                       (Blog.slug r <> s -> g r = r)).
  { exists (fun r => r). now rewrite map_id. }
  destruct (isAuthenticated w); [|injection H as _ <-; exact Hid].
  injection H as H. apply (f_equal snd) in H. cbn [snd] in H. subst w'.
  destruct t as [t|]; [|exact Hid].
  destruct (edit_table_effect cfg env s t d rf f w) as [->|[fu ->]];
    [exact Hid|].
  exists (fun r => if Backend.slug_is s r
                   then Backend.patch t d fu (edit_slug env (blogs w) t s) r
                   else r).
  split; [reflexivity|]. intros r.
  destruct (Backend.slug_is s r) eqn:E; repeat split.
  apply slug_is_true in E. congruence.
Qed.

Lemma edit_touches_only_the_edited_slug_witness :
  exists g : Blog.t -> Blog.t,
    [Blog.make 1 "Hello again" (Some "first")
       (Some "https://files.example/blog-files/1730000000000.pdf")
       "hello-again" 1730000000000; hello2]
    = map g [hello1; hello2] /\
    forall r, Blog.id (g r) = Blog.id r /\
              Blog.created_at (g r) = Blog.created_at r /\
              (Blog.slug r <> "hello-world" -> g r = r).
Proof.
  apply (@edit_touches_only_the_edited_slug sample_config
           (quiet_env 1730000120000 3) 0 "hello-world" (Some "Hello again")
           None None None hello_world
           (admin_world
              [Blog.make 1 "Hello again" (Some "first")
                 (Some "https://files.example/blog-files/1730000000000.pdf")
                 "hello-again" 1730000000000; hello2] [hello_pdf])
           (Redirect "/admin")).
  reflexivity.
Defined.

Lemma update_rows_untouched (s : string) (g : Blog.t -> Blog.t)
    (rows : list Blog.t) :
  ~ In s (slugs rows) -> Backend.update_rows s g rows = rows.
Proof.
  induction rows as [|r rows IH]; [reflexivity|].
  intros H. cbn.
  assert (E : Backend.slug_is s r = false).
  { apply slug_is_false. intros Hr. apply H. now left. }
  rewrite E. f_equal. apply IH. intros Hin. apply H. now right.
Qed.

(** On a table with pairwise distinct slugs an update reaches one row. *)
Lemma update_rows_unique (g : Blog.t -> Blog.t) (l1 l2 : list Blog.t)
    (p : Blog.t) :
  NoDup (slugs (l1 ++ p :: l2)) ->
  Backend.update_rows (Blog.slug p) g (l1 ++ p :: l2) = (l1 ++ g p :: l2)%list /\
  ~ In (Blog.slug p) (slugs l1 ++ slugs l2) /\
  NoDup (slugs l1 ++ slugs l2).
Proof.
  unfold slugs. rewrite map_app. cbn [map]. intros Hnd.
  pose proof (NoDup_remove_2 _ _ _ Hnd) as Hout.
  pose proof (NoDup_remove_1 _ _ _ Hnd) as Hrest.
  split; [|now split].
  unfold Backend.update_rows. rewrite map_app. cbn [map].
  rewrite (proj2 (slug_is_true (Blog.slug p) p) eq_refl).
  fold (Backend.update_rows (Blog.slug p) g l1).
  fold (Backend.update_rows (Blog.slug p) g l2).
  rewrite !update_rows_untouched; [reflexivity| |];
    intros H; apply Hout; apply in_app_iff; [now right | now left].
Qed.

Lemma select_conflict_none (rows : list Blog.t) (s old : string) :
  (forall r, In r rows -> Blog.slug r = s -> Blog.slug r = old) ->
  Backend.select_conflict rows s old = None.
Proof.
  intros H. unfold Backend.select_conflict.
  replace (filter (fun r => Backend.slug_is s r && negb (Backend.slug_is old r))
             rows) with (@nil Blog.t); [reflexivity|].
  symmetry. induction rows as [|r rows IH]; [reflexivity|].
  cbn. destruct (Backend.slug_is s r) eqn:E.
  - apply slug_is_true in E.
    rewrite (proj2 (slug_is_true old r) (H r (or_introl eq_refl) E)).
    cbn. apply IH. intros r' Hr'. apply H. now right.
  - cbn. apply IH. intros r' Hr'. apply H. now right.
Qed.

(** X24.  An edit keeps the slugs pairwise distinct when no other post holds
    the slug derived from the submitted title: whatever the outcome of the
    backend calls, the table has no two rows with the same slug afterwards. *)
Theorem edit_without_conflict_keeps_slugs_distinct (cfg : Config) (env : Env)
    (fuel : nat) (w w' : World) (p : Blog.t) (t : string)
    (d rf : option string) (f : option File) (resp : Response) :
  NoDup (slugs (blogs w)) ->
  In p (blogs w) ->
  (forall r, In r (blogs w) -> Blog.slug r = generateSlug t ->
             Blog.slug r = Blog.slug p) ->
  handle cfg env fuel (PostAdminEdit (Blog.slug p) (Some t) d rf f) w
  = Some (resp, w') ->
  NoDup (slugs (blogs w')).
Proof.
  intros Hnd Hp Hfree H. unfold handle, requireAuth in H.
  destruct (isAuthenticated w); [|injection H as _ <-; exact Hnd].
  injection H as H. apply (f_equal snd) in H. cbn [snd] in H. subst w'.
  destruct (edit_table_effect cfg env (Blog.slug p) t d rf f w)
    as [->|[fu ->]]; [exact Hnd|].
  unfold edit_slug. rewrite (@select_conflict_none _ _ _ Hfree).
  destruct (in_split _ _ Hp) as [l1 [l2 Hsplit]].
  rewrite Hsplit in Hnd, Hfree |- *.
  destruct (@update_rows_unique
              (Backend.patch t d fu (generateSlug t)) l1 l2 p Hnd)
    as [-> [Hout Hrest]].
  unfold slugs. rewrite map_app. cbn [map Backend.patch Blog.slug].
  apply (Permutation_NoDup
           (Permutation_middle (map Blog.slug l1) (map Blog.slug l2)
              (generateSlug t))).
  constructor; [|exact Hrest].
  intros Hin. apply Hout. unfold slugs in *.
  rewrite <- map_app in Hin |- *. apply in_map_iff in Hin.
  destruct Hin as [r [Hr Hin]]. apply in_map_iff. exists r. split; [|exact Hin].
  apply Hfree; [|exact Hr].
  apply in_app_iff in Hin. apply in_app_iff.
  destruct Hin as [Hin|Hin]; [now left | right; now right].
Qed.

Lemma edit_without_conflict_keeps_slugs_distinct_witness :
  NoDup ["hello-again"; "hello-world-1"].
Proof.
  apply (@edit_without_conflict_keeps_slugs_distinct sample_config
           (quiet_env 1730000120000 3) 0 hello_world
           (admin_world
              [Blog.make 1 "Hello again" (Some "first")
                 (Some "https://files.example/blog-files/1730000000000.pdf")
                 "hello-again" 1730000000000; hello2] [hello_pdf])
           hello1 "Hello again" None None None (Redirect "/admin")).
  - repeat constructor; cbn; intuition discriminate.
  - now left.
  - intros r [<-|[<-|[]]]; cbn; [reflexivity | discriminate].
  - reflexivity.
Defined.

(** X25.  The timestamp suffix is not checked against the table: when one
    post holds the derived slug and another already holds that slug with the
    same timestamp appended, a successful edit stores the second slug again
    and the table has two rows with the same slug. *)
Theorem edit_timestamp_can_collide (cfg : Config) (env : Env) (fuel : nat)
    (w : World) (p q r : Blog.t) (t : string) (d rf : option string)
    (f : option File) :
  isAuthenticated w = true ->
  NoDup (slugs (blogs w)) ->
  In p (blogs w) -> In q (blogs w) -> In r (blogs w) ->
  Blog.slug q = generateSlug t ->
  Blog.slug q <> Blog.slug p ->
  Blog.slug r = generateSlug t ++ "-" ++ Str.of_N (now_slug env) ->
  Blog.slug r <> Blog.slug p ->
  uploadError env = false ->
  updateError env = false ->
  exists w' : World,
    handle cfg env fuel (PostAdminEdit (Blog.slug p) (Some t) d rf f) w
    = Some (Redirect "/admin", w') /\
    ~ NoDup (slugs (blogs w')).
Proof.
  intros Ha Hnd Hp Hq Hr Hbase Hqp Hts Hrp Hu Hw.
  rewrite (handle_edit_authenticated cfg env fuel _ _ d rf f w Ha).
  destruct (@edit_success cfg env (Blog.slug p) t d rf f w p
              (select_unique _ _ Hnd Hp) Hu Hw) as [w' [fu [Hrun Hb]]].
  exists w'. split; [now rewrite Hrun|].
  unfold edit_slug in Hb.
  rewrite <- Hbase, (@select_conflict_other _ _ _ Hnd Hq Hqp), Hbase, <- Hts
    in Hb.
  destruct (in_split _ _ Hp) as [l1 [l2 Hsplit]].
  rewrite Hsplit in Hnd, Hr, Hb.
  destruct (@update_rows_unique (Backend.patch t d fu (Blog.slug r))
              l1 l2 p Hnd)
    as [Hup _].
  rewrite Hup in Hb. rewrite Hb. unfold slugs. rewrite map_app.
  cbn [map Backend.patch Blog.slug]. intros Hnd'.
  apply NoDup_remove_2 in Hnd'. apply Hnd'.
  rewrite <- map_app. apply in_map.
  apply in_app_iff in Hr. apply in_app_iff.
  destruct Hr as [Hr|[Hr|Hr]]; [now left | congruence | now right].
Qed.

Lemma edit_timestamp_can_collide_witness :
  let stamped := Blog.make 3 "Hello World 1730000120000" None None
                   "hello-world-1730000120000" 1730000090000 in
  exists w' : World,
    handle sample_config (quiet_env 1730000120000 4) 0
      (PostAdminEdit "hello-world-1" (Some "Hello World") None None None)
      (admin_world [hello1; hello2; stamped] [hello_pdf])
    = Some (Redirect "/admin", w') /\
    ~ NoDup (slugs (blogs w')).
Proof.
  intros stamped.
  apply (@edit_timestamp_can_collide sample_config
           (quiet_env 1730000120000 4) 0
           (admin_world [hello1; hello2; stamped] [hello_pdf])
           hello2 hello1 stamped "Hello World" None None None).
  - reflexivity.
  - repeat constructor; cbn; intuition discriminate.
  - right. now left.
  - now left.
  - right. right. now left.
  - reflexivity.
  - discriminate.
  - reflexivity.
  - discriminate.
  - reflexivity.
  - reflexivity.
Defined.

(** ** Deleting: edge cases *)

Lemma delete_rows_untouched (s : string) (rows : list Blog.t) :
  ~ In s (slugs rows) -> Backend.delete_rows s rows = rows.
Proof.
  induction rows as [|r rows IH]; [reflexivity|].
  intros H. cbn.
  assert (E : Backend.slug_is s r = false).
  { apply slug_is_false. intros Hr. apply H. now left. }
  rewrite E. cbn. f_equal. apply IH. intros Hin. apply H. now right.
Qed.

(** X26.  Deleting a slug that no row holds is not an error: the handler
    redirects to the admin list as after a real delete, no bucket call is
    made and the world is unchanged (an edit of such a slug answers 500). *)
Theorem delete_unknown_slug_redirects (cfg : Config) (env : Env) (fuel : nat)
    (s : string) (w : World) :
  isAuthenticated w = true ->
  ~ In s (slugs (blogs w)) ->
  deleteError env = false ->
  handle cfg env fuel (PostAdminDelete s) w = Some (Redirect "/admin", w).
Proof.
  intros Ha Hs Hd. unfold handle, requireAuth. rewrite Ha. run_handler.
  rewrite (select_absent _ _ Hs), Hd, (delete_rows_untouched _ _ Hs).
  cbn [fst snd blogs objects storage_log isAuthenticated].
  now destruct w.
Qed.

Lemma delete_unknown_slug_redirects_witness :
  handle sample_config (quiet_env 9 3) 0 (PostAdminDelete "no-such-post")
    hello_world
  = Some (Redirect "/admin", hello_world).
Proof.
  apply delete_unknown_slug_redirects; [reflexivity | | reflexivity].
  cbn. intuition discriminate.
Defined.

(** X27.  A successful delete of a post without a file makes no bucket call
    and removes exactly the rows of that slug: every other row stays, in
    order. *)
Theorem delete_without_file_skips_bucket (cfg : Config) (env : Env)
    (fuel : nat) (w : World) (p : Blog.t) :
  isAuthenticated w = true ->
  NoDup (slugs (blogs w)) ->
  In p (blogs w) ->
  truthy (Blog.file_url p) = false ->
  deleteError env = false ->
  exists w' : World,
    handle cfg env fuel (PostAdminDelete (Blog.slug p)) w
    = Some (Redirect "/admin", w') /\
    objects w' = objects w /\
    storage_log w' = storage_log w /\
    blogs w' = filter (fun r => negb (Blog.slug r =? Blog.slug p)%string) (blogs w) /\
    (forall r, In r (blogs w') <-> In r (blogs w) /\ r <> p).
Proof.
  intros Ha Hnd Hp Hf Hd. unfold handle, requireAuth. rewrite Ha. run_handler.
  rewrite (select_unique _ _ Hnd Hp), Hf, Hd.
  cbn [fst snd blogs objects storage_log isAuthenticated].
  eexists. split; [reflexivity|].
  cbn [fst snd blogs objects storage_log isAuthenticated].
  split; [reflexivity|]. split; [reflexivity|]. split; [reflexivity|].
  intros r. split; intros H.
  - apply delete_rows_in in H. destruct H as [Hr H].
    split; [exact Hr | congruence].
  - destruct H as [Hr Hne]. apply delete_rows_in. split; [exact Hr|].
    intros E. apply Hne.
    pose proof (select_unique _ _ Hnd Hr) as H1.
    rewrite E, (select_unique _ _ Hnd Hp) in H1. congruence.
Qed.

Lemma delete_without_file_skips_bucket_witness :
  exists w' : World,
    handle sample_config (quiet_env 9 3) 0 (PostAdminDelete "hello-world-1")
      hello_world
    = Some (Redirect "/admin", w') /\
    objects w' = [hello_pdf] /\
    storage_log w' = [] /\
    blogs w' = [hello1] /\
    (forall r, In r (blogs w') <-> In r (blogs hello_world) /\ r <> hello2).
Proof.
  apply (@delete_without_file_skips_bucket sample_config (quiet_env 9 3) 0
           hello_world hello2).
  - reflexivity.
  - repeat constructor; cbn; intuition discriminate.
  - right. now left.
  - reflexivity.
  - reflexivity.
Defined.

(** X28.  When the record delete fails, the handler answers with status 500
    and the table is unchanged, but the file has already been removed: the
    row is still stored with a [file_url] whose object is gone. *)
Theorem delete_failure_leaves_dangling_url (cfg : Config) (env : Env)
    (fuel : nat) (w : World) (p : Blog.t) (u : string) :
  isAuthenticated w = true ->
  NoDup (slugs (blogs w)) ->
  In p (blogs w) ->
  Blog.file_url p = Some u ->
  u <> "" ->
  deleteError env = true ->
  exists w' : World,
    handle cfg env fuel (PostAdminDelete (Blog.slug p)) w
    = Some (Send 500 "Error deleting blog post", w') /\
    blogs w' = blogs w /\
    storage_log w' = (storage_log w ++ [CallRemove [Str.last_segment u]])%list /\
    (forall o, In o (objects w') -> name o <> Str.last_segment u).
Proof.
  intros Ha Hnd Hp Hu Hne Hd. unfold handle, requireAuth. rewrite Ha.
  run_handler.
  rewrite (select_unique _ _ Hnd Hp), Hu, (truthy_nonempty Hne), Hd.
  cbn [fst snd blogs objects storage_log isAuthenticated].
  eexists. split; [reflexivity|].
  cbn [fst snd blogs objects storage_log isAuthenticated].
  repeat split. intros o Ho. now apply remove_objects_in in Ho.
Qed.

Lemma delete_failure_leaves_dangling_url_witness :
  let env := {| now_slug := 9; now_file := 9; uploadError := false;
                insertError := false; updateError := false;
                deleteError := true; insert_id := 3;
                insert_created_at := 9 |} in
  exists w' : World,
    handle sample_config env 0 (PostAdminDelete "hello-world") hello_world
    = Some (Send 500 "Error deleting blog post", w') /\
    blogs w' = [hello1; hello2] /\
    storage_log w' = [CallRemove ["1730000000000.pdf"]] /\
    (forall o, In o (objects w') -> name o <> "1730000000000.pdf").
Proof.
  intros env.
  apply (@delete_failure_leaves_dangling_url sample_config env 0 hello_world
           hello1 "https://files.example/blog-files/1730000000000.pdf").
  - reflexivity.
  - repeat constructor; cbn; intuition discriminate.
  - now left.
  - reflexivity.
  - discriminate.
  - reflexivity.
Defined.

(** ** An upload and its removal *)

Lemma slash_free_app (a b : string) :
  slash_free (a ++ b) = slash_free a && slash_free b.
Proof.
  unfold slash_free. induction a as [|c r IH]; [reflexivity|].
  cbn. now rewrite IH, andb_assoc.
Qed.

Lemma of_N_slash_free (n : N) : slash_free (Str.of_N n) = true.
Proof.
  unfold Str.of_N. generalize (N.to_uint n). intros u.
  induction u; cbn; try exact IHu; reflexivity.
Qed.

Lemma last_segment_slash_free (n : string) :
  slash_free n = true -> Str.last_segment n = n.
Proof.
  unfold slash_free. destruct n as [|c r]; [reflexivity|].
  cbn. intros H. apply andb_true_iff in H. destruct H as [Hc Hr].
  apply negb_true_iff in Hc. now rewrite Hc, Hr.
Qed.

(** [split('/').pop()] gives back the name that follows the last slash. *)
Lemma last_segment_suffix (a n : string) :
  slash_free n = true -> Str.last_segment (a ++ "/" ++ n) = n.
Proof.
  intros Hn. induction a as [|c r IH].
  - cbn. now apply last_segment_slash_free.
  - change (String c r ++ "/" ++ n) with (String c (r ++ "/" ++ n)).
    cbn [Str.last_segment]. destruct (Chars.code c =? 47); [exact IH|].
    fold (slash_free (r ++ "/" ++ n)).
    rewrite slash_free_app. replace (slash_free ("/" ++ n)) with false
      by reflexivity.
    now rewrite andb_false_r.
Qed.

Lemma remove_objects_fresh (n : string) (os : list Object) (o : Object) :
  name o = n ->
  (forall x, In x os -> name x <> n) ->
  Backend.remove_objects [n] (os ++ [o]) = os.
Proof.
  intros Ho Hfresh. unfold Backend.remove_objects, Backend.named_in.
  induction os as [|x os IH]; cbn [app filter existsb].
  - now rewrite (proj2 (String.eqb_eq (name o) n) Ho).
  - rewrite (proj2 (String.eqb_neq (name x) n) (Hfresh x (or_introl eq_refl))).
    cbn [orb negb]. f_equal. apply IH. intros y Hy. apply Hfresh. now right.
Qed.

Lemma delete_rows_last (rows : list Blog.t) (r : Blog.t) :
  ~ In (Blog.slug r) (slugs rows) ->
  Backend.delete_rows (Blog.slug r) (rows ++ [r]) = rows.
Proof.
  intros H. unfold Backend.delete_rows. rewrite filter_app. cbn [filter].
  rewrite (proj2 (slug_is_true (Blog.slug r) r) eq_refl). cbn.
  rewrite app_nil_r. now apply delete_rows_untouched.
Qed.

Lemma append_nonempty (a b : string) (c : ascii) : a ++ String c b <> "".
Proof. destruct a; discriminate. Qed.

(** X29.  Creating a post with a file and then deleting it restores the
    table and the bucket: when public URLs end in a slash and the object
    name, the extension has no slash, the bucket had no object of the new
    name and the backend calls succeed, the delete removes exactly the
    object the create uploaded and the row it inserted. *)
Theorem create_then_delete_restores (cfg : Config) (env1 env2 : Env)
    (w : World) (t : string) (d : option string) (file : File)
    (prefix : string) :
  isAuthenticated w = true ->
  NoDup (slugs (blogs w)) ->
  uploadError env1 = false ->
  insertError env1 = false ->
  deleteError env2 = false ->
  (forall n, getPublicUrl cfg n = prefix ++ "/" ++ n) ->
  slash_free (extname cfg (originalname file)) = true ->
  (forall o, In o (objects w) ->
     name o <> Str.of_N (now_file env1) ++ extname cfg (originalname file)) ->
  exists (k : nat) (w1 : World) (r : Blog.t) (w2 : World),
    (forall extra : nat,
        handle cfg env1 (S (k + extra))
          (PostAdminBlog (Some t) d (Some file)) w
        = Some (Redirect "/", w1)) /\
    blogs w1 = (blogs w ++ [r])%list /\
    (forall fuel' : nat,
        handle cfg env2 fuel' (PostAdminDelete (Blog.slug r)) w1
        = Some (Redirect "/admin", w2)) /\
    blogs w2 = blogs w /\
    objects w2 = objects w /\
    storage_log w2
    = (storage_log w ++
       [CallUpload (Str.of_N (now_file env1)
                    ++ extname cfg (originalname file))%string;
        CallRemove [(Str.of_N (now_file env1)
                     ++ extname cfg (originalname file))%string]])%list.
Proof.
  intros Ha Hnd Hu Hi Hd Hurl Hext Hfresh.
  set (fn := Str.of_N (now_file env1) ++ extname cfg (originalname file))
    in *.
  assert (Hfn : slash_free fn = true).
  { unfold fn. now rewrite slash_free_app, of_N_slash_free, Hext. }
  destruct (slugLoop_first_free (blogs w) (generateSlug t))
    as [k [_ [Hfree [_ Hrun]]]].
  set (s := candidate (generateSlug t) (N.of_nat k)) in *.
  assert (Hs : ~ In s (slugs (blogs w))) by now apply select_none_iff.
  set (r := Blog.make (insert_id env1) t d (Some (getPublicUrl cfg fn)) s
              (insert_created_at env1)).
  set (o := {| name := fn; body := buffer file;
               contentType := mimetype file; cacheControl := "3600" |}).
  set (w1 := {| isAuthenticated := isAuthenticated w;
                blogs := (blogs w ++ [r])%list;
                objects := (objects w ++ [o])%list;
                storage_log := (storage_log w ++ [CallUpload fn])%list |}).
  set (w2 := {| isAuthenticated := isAuthenticated w;
                blogs := blogs w;
                objects := objects w;
                storage_log :=
                  ((storage_log w ++ [CallUpload fn]) ++ [CallRemove [fn]])%list
             |}).
  exists k, w1, r, w2.
  split; [|split; [reflexivity|split; [|split; [reflexivity|split]]]].
  - intros extra.
    rewrite (@handle_create_authenticated cfg env1 _ t d (Some file) w _ Ha
               (Hrun (S (k + extra)) ltac:(lia))).
    run_handler. rewrite Hu, Hi. reflexivity.
  - intros fuel'. unfold handle, requireAuth, w1, w2.
    cbn [isAuthenticated]. rewrite Ha.
    run_handler. change (Blog.slug r) with s.
    assert (Hsel : Backend.select_by_slug (blogs w ++ [r]) s = Some r).
    { apply (@select_unique (blogs w ++ [r]) r).
      - unfold slugs. rewrite map_app. now apply NoDup_snoc.
      - apply in_app_iff. right. now left. }
    rewrite Hsel. cbn [Blog.file_url r].
    rewrite Hurl, truthy_nonempty by apply append_nonempty.
    rewrite (@last_segment_suffix prefix fn Hfn), Hd.
    cbn [fst snd blogs objects storage_log isAuthenticated].
    replace (Backend.delete_rows s (blogs w ++ [r])) with (blogs w)
      by (symmetry; exact (@delete_rows_last (blogs w) r Hs)).
    now rewrite (@remove_objects_fresh fn (objects w) o eq_refl Hfresh).
  - reflexivity.
  - unfold w2. cbn [storage_log]. now rewrite <- app_assoc.
Qed.

Lemma create_then_delete_restores_witness :
  let file := {| originalname := "slides.pdf"; buffer := "%PDF-2";
                 mimetype := "application/pdf" |} in
  exists (k : nat) (w1 : World) (r : Blog.t) (w2 : World),
    (forall extra : nat,
        handle sample_config (quiet_env 1730000120000 3) (S (k + extra))
          (PostAdminBlog (Some "Hello World") None (Some file)) hello_world
        = Some (Redirect "/", w1)) /\
    blogs w1 = [hello1; hello2; r] /\
    (forall fuel' : nat,
        handle sample_config (quiet_env 1730000180000 4) fuel'
          (PostAdminDelete (Blog.slug r)) w1
        = Some (Redirect "/admin", w2)) /\
    blogs w2 = [hello1; hello2] /\
    objects w2 = [hello_pdf] /\
    storage_log w2
    = [CallUpload "1730000120000.pdf"; CallRemove ["1730000120000.pdf"]].
Proof.
  intros file.
  apply (@create_then_delete_restores sample_config
           (quiet_env 1730000120000 3) (quiet_env 1730000180000 4)
           hello_world "Hello World" None file
           "https://files.example/blog-files").
  - reflexivity.
  - repeat constructor; cbn; intuition discriminate.
  - reflexivity.
  - reflexivity.
  - reflexivity.
  - intros n. reflexivity.
  - reflexivity.
  - intros o [<-|[]]. discriminate.
Defined.
